(** * The TUN/TAP adapter of yggdrasil-go: packet pump and neighbour cache

    A shallow embedding of [src/tuntap/tun.go]: the read loop, the write
    loop with its [sendndp] closure, and [Close].  Byte buffers are lists of
    [Byte.byte], Go [int]s are [Z], the [peermacs] map is a [gmap], and a Go
    runtime panic is an explicit outcome. *)

From Stdlib Require Import ZArith Lia.
From Stdlib Require Import Strings.Byte Strings.String.
From stdpp Require Import base decidable countable option list vector gmap.

Local Open Scope Z_scope.

(** ** Bytes and Go slices *)

#[global] Instance byte_eq_dec : EqDecision byte := Byte.byte_eq_dec.

#[global] Instance byte_countable : Countable byte :=
  inj_countable Byte.to_N Byte.of_N Byte.of_to_N.

(** [int(b)] for a byte [b]. *)
Definition byte_Z (b : byte) : Z := Z.of_N (Byte.to_N b).

(** [b & 0xf0]: the version nibble of an IP header, still in the high bits. *)
Definition nibble (b : byte) : Z := Z.land (byte_Z b) 0xf0.

(** [s[i]] on a slice seen as a list; [None] is the index-out-of-range
    panic. *)
Definition at_index (s : list byte) (i : Z) : option byte :=
  if bool_decide (0 ≤ i) then s !! Z.to_nat i else None.

(** [s[lo:hi]] on a slice whose capacity equals its length (such as the
    fresh [make([]byte, mtu)] of the read loop); [None] is the panic. *)
Definition slice_range (s : list byte) (lo hi : Z) : option (list byte) :=
  if bool_decide (0 ≤ lo ∧ lo ≤ hi ∧ hi ≤ Z.of_nat (length s))
  then Some (take (Z.to_nat (hi - lo)) (drop (Z.to_nat lo) s))
  else None.

(** [copy(dst, src)] on lists: the first [min (len dst) (len src)] cells of
    [dst] are overwritten. *)
Definition go_copy (dst src : list byte) : list byte :=
  take (length dst) src ++ drop (length src) dst.

(** [copy(dst[:k], src)] where [dst] is a fixed-size array. *)
Fixpoint vcopy {n} (k : nat) (dst : vec byte n) (src : list byte) {struct dst} : vec byte n :=
  match dst in vec _ m return vec byte m with
  | vnil => vnil
  | vcons d dst' =>
      match k, src with
      | S k', s :: src' => vcons s (vcopy k' dst' src')
      | _, _ => vcons d dst'
      end
  end.

(** A Go slice together with the part of its backing array that lies beyond
    its length: [len] counts [visible], [cap] counts both.  A slice
    expression [s[lo:hi]] on a slice is checked against the capacity. *)
Record GoSlice := { visible : list byte; spare : list byte }.

Definition len (s : GoSlice) : Z := Z.of_nat (length (visible s)).
Definition cap (s : GoSlice) : Z := Z.of_nat (length (visible s) + length (spare s)).

Definition reslice (s : GoSlice) (lo hi : Z) : option GoSlice :=
  if bool_decide (0 ≤ lo ∧ lo ≤ hi ∧ hi ≤ cap s)
  then Some {| visible := take (Z.to_nat (hi - lo))
                               (drop (Z.to_nat lo) (visible s ++ spare s));
               spare := drop (Z.to_nat hi) (visible s ++ spare s) |}
  else None.

(** ** Data model *)

Definition tun_IPv6_HEADER_LENGTH : Z := 40.
Definition tun_ETHER_HEADER_LENGTH : Z := 14.

(** [address.Address] is [[16]byte], [address.Subnet] is [[8]byte] and
    [macAddress] is [[6]byte]. *)
Abbreviation Address := (vec byte 16).
Abbreviation Subnet := (vec byte 8).
Abbreviation macAddress := (vec byte 6).

Definition vec_of_list_n {A} (n : nat) (l : list A) : option (vec A n) :=
  match decide (length l = n) with
  | left H => Some (eq_rect _ (vec A) (list_to_vec l) _ H)
  | right _ => None
  end.

Lemma vec_of_list_n_to_list {A} n (v : vec A n) :
  vec_of_list_n n (vec_to_list v) = Some v.
Proof.
  unfold vec_of_list_n. destruct (decide _) as [H|H].
  - f_equal. apply vec_to_list_inj2. rewrite <- H. simpl.
    apply vec_to_list_to_vec.
  - destruct H. apply length_vec_to_list.
Qed.

(** Keys of the neighbour cache; this instance computes. *)
#[global] Instance bytes_countable n : Countable (vec byte n) | 0 :=
  inj_countable vec_to_list (vec_of_list_n n) (vec_of_list_n_to_list n).

(** The zero value of a byte array. *)
Definition zero_bytes (n : nat) : vec byte n := vreplicate n x00.

(** A [time.Time] as nanoseconds on the monotonic clock, a [time.Duration]
    as a count of nanoseconds. *)
Definition Time := Z.
Definition Second : Z := 1000000000.

(** [time.Since(t)] when the clock reads [now]. *)
Definition Since (now t : Time) : Z := now - t.

(** [d.Seconds() < 30].  [Seconds] returns [float64(d/Second) +
    float64(d%Second)/1e9]; 30 is a float and every duration below
    30 000 000 000 ns lands at least a nanosecond under it, so the
    comparison is decided by the nanosecond count. *)
Definition Seconds_lt_30 (d : Z) : bool := bool_decide (d < 30 * Second).

(** Modelled from the spec: the [neighbor] struct of icmpv6.go, of which
    tun.go uses the learned MAC, the [learned] flag and the time of the last
    solicitation. *)
Record neighbor := {
  mac : macAddress;
  learned : bool;
  lastsolicitation : Time
}.

(** Modelled from the spec: the [ICMPv6] struct of icmpv6.go, of which
    tun.go uses the neighbour cache and the adapter's own MAC. *)
Record ICMPv6 := {
  peermacs : gmap Address neighbor;
  mymac : macAddress
}.

(** [water.Interface]: the device; tun.go asks it only for its mode. *)
Record Interface := { IsTAP : bool }.

Record TunAdapter := {
  addr : Address;
  subnet : Subnet;
  icmpv6 : ICMPv6;
  mtu : Z;
  iface : option Interface;
  isOpen : bool
}.

Definition set_peermacs (tun : TunAdapter) (m : gmap Address neighbor) : TunAdapter :=
  {| addr := addr tun; subnet := subnet tun;
     icmpv6 := {| peermacs := m; mymac := mymac (icmpv6 tun) |};
     mtu := mtu tun; iface := iface tun; isOpen := isOpen tun |}.

Definition set_isOpen (tun : TunAdapter) (b : bool) : TunAdapter :=
  {| addr := addr tun; subnet := subnet tun; icmpv6 := icmpv6 tun;
     mtu := mtu tun; iface := iface tun; isOpen := b |}.

(** Go's [error] values, by their message. *)
Definition error := string.

(** Modelled from the spec: [util.GetBytes] (package util): the pool hands
    out a buffer of length zero, to which the caller appends. *)
Definition GetBytes : list byte := [].

(** ** The read loop *)

(** What [tun.iface.Read(buf)] returned: a byte count or an error. *)
Inductive read_result :=
| ReadN (n : Z)
| ReadErr (err : error).

(** One turn of the loop of [read]. [Forwarded packet parsed]: [packet] was
    sent on [tun.Send], and [parsed] is the buffer handed to
    [go tun.icmpv6.ParsePacket], if one was. *)
Inductive read_outcome :=
| ReadPanic
| ReadReturn (err : option error)
| Dropped
| Forwarded (packet : list byte) (parsed : option (list byte)).

(** The first case of the switch; [&&] evaluates its right side only when
    the left side holds. *)
Definition is_ipv6_of_length (buf : list byte) (o n : Z) : option bool :=
  b0 ← at_index buf o;
  if bool_decide (nibble b0 = 0x60) then
    b4 ← at_index buf (o + 4);
    b5 ← at_index buf (o + 5);
    Some (bool_decide (n = 256 * byte_Z b4 + byte_Z b5 + tun_IPv6_HEADER_LENGTH + o))
  else Some false.

(** The second case of the switch. *)
Definition is_ipv4_of_length (buf : list byte) (o n : Z) : option bool :=
  b0 ← at_index buf o;
  if bool_decide (nibble b0 = 0x40) then
    b2 ← at_index buf (o + 2);
    b3 ← at_index buf (o + 3);
    Some (bool_decide (n = 256 * byte_Z b2 + byte_Z b3 + o))
  else Some false.

(** The code after the switch: the ICMPv6 test and the hand-over. *)
Definition forward (tap : bool) (buf : list byte) (o n : Z) : option read_outcome :=
  b6 ← at_index buf (o + 6);
  let parsed :=
    if bool_decide (byte_Z b6 = 58) then
      if tap then Some (go_copy (replicate (Z.to_nat n) x00) buf) else None
    else None in
  payload ← slice_range buf o n;
  Some (Forwarded (GetBytes ++ payload) parsed).

(** [o]: where the IP header starts in the buffer. *)
Definition ether_offset (tap : bool) : Z :=
  if tap then tun_ETHER_HEADER_LENGTH else 0.

Definition read_packet (tap : bool) (buf : list byte) (n : Z) : option read_outcome :=
  let o := ether_offset tap in
  v6 ← is_ipv6_of_length buf o n;
  if v6 : bool then forward tap buf o n
  else
    v4 ← is_ipv4_of_length buf o n;
    if v4 : bool then forward tap buf o n
    else Some Dropped.

(** One turn of [read]: [buf] is the buffer as the device left it. The
    loop calls methods of [tun.iface], so a nil interface panics. *)
Definition read_step (tun : TunAdapter) (res : read_result) (buf : list byte) : read_outcome :=
  match iface tun with
  | None => ReadPanic
  | Some ifc =>
      match res with
      | ReadErr err => if isOpen tun then ReadReturn (Some err) else ReadReturn None
      | ReadN n => default ReadPanic (read_packet (IsTAP ifc) buf n)
      end
  end.

(** The loop of [read] over the successive results of the device: the
    outcome of each turn, up to the turn that leaves the loop. *)
Fixpoint read (tun : TunAdapter) (inputs : list (read_result * list byte)) : list read_outcome :=
  match inputs with
  | [] => []
  | (res, buf) :: rest =>
      match read_step tun res buf with
      | Dropped => Dropped :: read tun rest
      | Forwarded packet parsed => Forwarded packet parsed :: read tun rest
      | last => [last]
      end
  end.

(** The length a de-framed IP header declares: the payload length plus the
    fixed header for IPv6, the total length for IPv4. *)
Definition declared_length (ip : list byte) : option Z :=
  b0 ← ip !! 0%nat;
  if bool_decide (nibble b0 = 0x60) then
    b4 ← ip !! 4%nat; b5 ← ip !! 5%nat;
    Some (256 * byte_Z b4 + byte_Z b5 + tun_IPv6_HEADER_LENGTH)
  else if bool_decide (nibble b0 = 0x40) then
    b2 ← ip !! 2%nat; b3 ← ip !! 3%nat;
    Some (256 * byte_Z b2 + byte_Z b3)
  else None.

(** ** The write loop *)

Inductive Ethertype := EtherZero | EtherIPv4 | EtherIPv6.

(** An [ethernet.Frame] as [Prepare] lays it out, untagged: destination,
    source, ethertype, then the payload copied behind the 14-byte header. *)
Record Frame := {
  frame_dst : macAddress;
  frame_src : macAddress;
  frame_proto : Ethertype;
  frame_payload : list byte
}.

(** The calls of [tun.iface.Write] made by the write loop, in order. *)
Inductive written :=
| Solicitation (target : Address) (request : list byte)
| EthernetFrame (f : Frame)
| RawPacket (data : list byte)
| TooBig (icmpv6Buf : list byte).

(** Modelled from the spec: the reasons, details and notifications of
    [yggdrasil.RejectedPacket] (package yggdrasil): a reason, the original
    packet bytes and a reason-specific detail, an [int] for "too big". *)
Inductive RejectedPacketReason := PacketTooBig | OtherReason.

Inductive RejectDetail := DetailInt (n : Z) | DetailOther.

Record RejectedPacket := {
  Reason : RejectedPacketReason;
  Packet : GoSlice;
  Detail : RejectDetail
}.

(** The message builders that tun.go calls and icmpv6.go defines: the
    properties below hold for any pair of them. [None] is a non-nil
    [err]. *)
Class Builders := {
  CreateNDPL2 : TunAdapter → Address → option (list byte);
  CreateICMPv6 : GoSlice → GoSlice → Z → GoSlice → option (list byte)
}.

(** What one turn of the write loop gets from outside: the clock as read by
    [time.Since] and then by [time.Now], and whether the device accepts the
    solicitation and the packet. *)
Record env := {
  since_now : Time;
  stamp_now : Time;
  ndp_write_ok : bool;
  write_ok : bool
}.

Inductive control := Continue | Return (err : option error) | Panic.

(** The effects of a piece of the write loop: how it leaves, the adapter
    afterwards, the device writes it made and the buffers it gave back with
    [util.PutBytes]. *)
Record outcome := {
  ctl : control;
  st : TunAdapter;
  wire : list written;
  pool : list (list byte)
}.

Definition leave (c : control) (tun : TunAdapter) : outcome :=
  {| ctl := c; st := tun; wire := []; pool := [] |}.

(** The entry stored by [sendndp]: every field but the time is zero. *)
Definition solicited (now : Time) : neighbor :=
  {| mac := zero_bytes 6; learned := false; lastsolicitation := now |}.

Inductive event :=
| FromReject (reject : RejectedPacket)
| FromRecv (data : list byte).

Inductive extracted :=
| TooShort
| InvalidFamily
| Extracted (destAddr : Address).

(** [bytes.Equal]. *)
Definition bytes_Equal (a b : list byte) : bool := bool_decide (a = b).

Definition proto_of (b0 : byte) : Ethertype :=
  if bool_decide (nibble b0 = 0x60) then EtherIPv6
  else if bool_decide (nibble b0 = 0x40) then EtherIPv4
  else EtherZero.

(** Lines 208-225: the destination as the header has it. *)
Definition extract_destAddr (b0 : byte) (data : list byte) : extracted :=
  if bool_decide (nibble b0 = 0x60) then
    if bool_decide (Z.of_nat (length data) < 40) then TooShort
    else Extracted (vcopy 16 (zero_bytes 16) (drop 24 data))
  else if bool_decide (nibble b0 = 0x40) then
    if bool_decide (Z.of_nat (length data) < 20) then TooShort
    else Extracted (vcopy 4 (zero_bytes 16) (drop 16 data))
  else InvalidFamily.

(** Lines 244-250: the address whose MAC is looked up. *)
Definition choose_destAddr (tun : TunAdapter) (b0 : byte) (destAddr : Address) : Address :=
  if bool_decide (nibble b0 = 0x40) then addr tun
  else if bool_decide (nibble b0 = 0x60) then
    if negb (bytes_Equal (take 16 (vec_to_list (addr tun))) (take 16 (vec_to_list destAddr)))
       && negb (bytes_Equal (take 8 (vec_to_list (subnet tun))) (take 8 (vec_to_list destAddr)))
    then addr tun
    else destAddr
  else destAddr.

(** Lines 227-228: the variable [known] of [sendndp]: there is an entry and
    its last solicitation is less than 30 seconds old. *)
Definition known (tun : TunAdapter) (now : Time) (destAddr : Address) : bool :=
  match peermacs (icmpv6 tun) !! destAddr with
  | Some neigh => Seconds_lt_30 (Since now (lastsolicitation neigh))
  | None => false
  end.

(** The solicitations for [target] among the device writes. *)
Definition solicitations_for (target : Address) (w : list written) : list written :=
  filter (λ x, match x with
               | Solicitation t _ => bool_decide (t = target)
               | _ => false
               end = true) w.

Definition no_solicitation (w : list written) : Prop :=
  ∀ target request, Solicitation target request ∉ w.

Section WriteLoop.
Context `{Builders}.

(** Lines 226-241: the closure [sendndp]. *)
Definition sendndp (tun : TunAdapter) (e : env) (destAddr : Address) : outcome :=
  if known tun (since_now e) destAddr then leave Continue tun
  else
    match CreateNDPL2 tun destAddr with
    | None => leave Panic tun
    | Some request =>
        if ndp_write_ok e then
          {| ctl := Continue;
             st := set_peermacs tun
                     (<[destAddr := solicited (stamp_now e)]> (peermacs (icmpv6 tun)));
             wire := [Solicitation destAddr request];
             pool := [] |}
        else
          {| ctl := Panic; st := tun;
             wire := [Solicitation destAddr request]; pool := [] |}
    end.

(** Lines 251-260: [peerknown] and [peermac] as an option, next to what
    [sendndp] did. *)
Definition resolve (tun : TunAdapter) (e : env) (destAddr : Address)
  : outcome * option macAddress :=
  match peermacs (icmpv6 tun) !! destAddr with
  | Some {| mac := m; learned := true |} => (leave Continue tun, Some m)
  | _ =>
      match peermacs (icmpv6 tun) !! addr tun with
      | Some {| mac := m; learned := true |} => (sendndp tun e destAddr, Some m)
      | _ => (sendndp tun e (addr tun), None)
      end
  end.

(** A write of the packet itself failed: the loop ends quietly when the
    adapter was closed and panics otherwise. *)
Definition write_failed (tun : TunAdapter) (w : list written) : outcome :=
  {| ctl := if isOpen tun then Panic else Return None;
     st := tun; wire := w; pool := [] |}.

(** Line 300: the turn ends with [util.PutBytes(data)]. *)
Definition release (tun : TunAdapter) (w : list written) (data : list byte) : outcome :=
  {| ctl := Continue; st := tun; wire := w; pool := [data] |}.

(** Lines 251-287: resolve the MAC of [destAddr], frame and write. *)
Definition deliver (tun : TunAdapter) (e : env) (b0 : byte) (data : list byte)
    (destAddr : Address) : outcome :=
  let (ndp, peer) := resolve tun e destAddr in
  match ctl ndp, peer with
  | Continue, Some peermac =>
      let frame := {| frame_dst := peermac;
                      frame_src := mymac (icmpv6 (st ndp));
                      frame_proto := proto_of b0;
                      frame_payload := data |} in
      let w := wire ndp ++ [EthernetFrame frame] in
      if write_ok e then release (st ndp) w data
      else write_failed (st ndp) w
  | Continue, None => release (st ndp) (wire ndp) data
  | _, _ => ndp
  end.

(** Lines 207-287: an outbound payload in TAP mode. *)
Definition write_tap (tun : TunAdapter) (e : env) (data : list byte) : outcome :=
  match at_index data 0 with
  | None => leave Panic tun
  | Some b0 =>
      match extract_destAddr b0 data with
      | TooShort => release tun [] data
      | InvalidFamily => leave (Return (Some "Invalid address family"%string)) tun
      | Extracted destAddr => deliver tun e b0 data (choose_destAddr tun b0 destAddr)
      end
  end.

(** Lines 203-300: an outbound payload. *)
Definition write_recv (tun : TunAdapter) (e : env) (data : list byte) : outcome :=
  match iface tun with
  | None => leave Continue tun
  | Some ifc =>
      if IsTAP ifc then write_tap tun e data
      else if write_ok e then release tun [RawPacket data] data
      else write_failed tun [RawPacket data]
  end.

(** Lines 179-202: a rejected-packet notification. The two slice
    expressions are evaluated before the call; the result of the device
    write is not looked at. *)
Definition write_reject (tun : TunAdapter) (reject : RejectedPacket) : outcome :=
  match Reason reject, Detail reject with
  | PacketTooBig, DetailInt mtu =>
      match reslice (Packet reject) 8 24 with
      | None => leave Panic tun
      | Some dst =>
          match reslice (Packet reject) 24 40 with
          | None => leave Panic tun
          | Some src =>
              match CreateICMPv6 dst src mtu (Packet reject) with
              | Some icmpv6Buf =>
                  match iface tun with
                  | None => leave Panic tun
                  | Some _ =>
                      {| ctl := Continue; st := tun;
                         wire := [TooBig icmpv6Buf]; pool := [] |}
                  end
              | None => leave Continue tun
              end
          end
      end
  | _, _ => leave Continue tun
  end.

(** One turn of the loop of [write]. *)
Definition write_step (tun : TunAdapter) (e : env) (ev : event) : outcome :=
  match ev with
  | FromReject reject => write_reject tun reject
  | FromRecv data => write_recv tun e data
  end.

(** The loop of [write] over the successive events: it runs until a turn
    returns or panics, or the events at hand are used up. *)
Fixpoint write (tun : TunAdapter) (inputs : list (env * event)) : outcome :=
  match inputs with
  | [] => leave Continue tun
  | (e, ev) :: rest =>
      let r := write_step tun e ev in
      match ctl r with
      | Continue =>
          let r' := write (st r) rest in
          {| ctl := ctl r'; st := st r';
             wire := wire r ++ wire r'; pool := pool r ++ pool r' |}
      | _ => r
      end
  end.

End WriteLoop.

(** ** Start and Close *)

(** The fields of [config.NodeState.Current] that [Start] reads. *)
Record NodeConfig := {
  IfName : string;
  IfTAPMode : bool;
  IfMTU : Z
}.

Definition set_addr (tun : TunAdapter) (a : Address) (s : Subnet) : TunAdapter :=
  {| addr := a; subnet := s; icmpv6 := icmpv6 tun;
     mtu := mtu tun; iface := iface tun; isOpen := isOpen tun |}.

Section Lifecycle.
(** [tun.setup], which each platform defines: the adapter afterwards and
    the error, if any. *)
Variable setup : TunAdapter → string → bool → Z → TunAdapter * option error.

(** [Start]: the adapter afterwards, the error returned, and whether the
    reader and writer goroutines were started. *)
Definition Start (tun : TunAdapter) (config : option NodeConfig)
    (a : Address) (s : Subnet) : TunAdapter * option error * bool :=
  let tun := set_addr tun a s in
  match config with
  | None => (tun, Some "No configuration available to TUN/TAP"%string, false)
  | Some c =>
      let (tun, err) :=
        if bool_decide (IfName c ≠ "none"%string)
        then setup tun (IfName c) (IfTAPMode c) (IfMTU c)
        else (tun, None) in
      match err with
      | Some err => (tun, Some err, false)
      | None =>
          if bool_decide (IfName c = "none"%string)
             || bool_decide (IfName c = "dummy"%string)
          then (tun, None, false)
          else (set_isOpen tun true, None, true)
      end
  end.
End Lifecycle.

(** [Close]; [dev_close] is what [tun.iface.Close()] returns when called. *)
Definition Close (tun : TunAdapter) (dev_close : option error) : TunAdapter * option error :=
  let tun := set_isOpen tun false in
  match iface tun with
  | None => (tun, None)
  | Some _ => (tun, dev_close)
  end.

(** ** The MTU and the platform defaults *)

(** The fields of [defaults.GetDefaults()] that tun.go reads; every
    platform sets its own. *)
Record platformDefaults := {
  MaximumIfMTU : Z;
  DefaultIfMTU : Z;
  DefaultIfName : string;
  DefaultIfTAPMode : bool
}.

Section Platform.
Variable defaults : platformDefaults.

Definition getSupportedMTU (mtu : Z) : Z :=
  if bool_decide (mtu > MaximumIfMTU defaults) then MaximumIfMTU defaults else mtu.

Definition MTU (tun : TunAdapter) : Z := getSupportedMTU (mtu tun).

Definition MaximumMTU : Z := MaximumIfMTU defaults.

Definition DefaultMTU : Z := DefaultIfMTU defaults.
End Platform.

(** Lines 310-314: the buffer of [read], [make([]byte, mtu)] with room for
    the Ethernet header in TAP mode; [None] is the panic of [make] on a
    negative length, or of [IsTAP] on a nil interface. *)
Definition read_buffer (tun : TunAdapter) : option (list byte) :=
  ifc ← iface tun;
  let size := mtu tun + ether_offset (IsTAP ifc) in
  if bool_decide (0 ≤ size) then Some (replicate (Z.to_nat size) x00) else None.

(** ** The probe started by [Start] in TAP mode *)

Section Probe.
Context `{Builders}.

(** Lines 155-167: one turn of the probe loop on the adapter as it is at
    that moment; [accepted] tells whether the device takes the request.
    [Return None] is the [break]. *)
Definition probe_step (tun : TunAdapter) (accepted : bool) : control * list written :=
  match peermacs (icmpv6 tun) !! addr tun with
  | Some _ => (Return None, [])
  | None =>
      match CreateNDPL2 tun (addr tun) with
      | None => (Panic, [])
      | Some request =>
          match iface tun with
          | None => (Panic, [])
          | Some _ =>
              (if accepted then Continue else Panic,
               [Solicitation (addr tun) request])
          end
      end
  end.

(** The probe loop over the successive states in which its turns find the
    adapter (the cache is shared with the write loop and the parser). *)
Fixpoint probe (snapshots : list (TunAdapter * bool)) : control * list written :=
  match snapshots with
  | [] => (Continue, [])
  | (tun, accepted) :: rest =>
      let (c, w) := probe_step tun accepted in
      match c with
      | Continue => let (c', w') := probe rest in (c', w ++ w')
      | _ => (c, w)
      end
  end.
End Probe.

(** ** Notions used by the properties *)

(** [k] has a learned entry [n] in the cache of [tun]. *)
Definition learned_at (tun : TunAdapter) (k : Address) (n : neighbor) : Prop :=
  peermacs (icmpv6 tun) !! k = Some n ∧ learned n = true.

(** [k] is the adapter's own address or lies in its subnet. *)
Definition on_link (tun : TunAdapter) (k : Address) : Prop :=
  k = addr tun ∨ take 8 (vec_to_list k) = vec_to_list (subnet tun).

(** The payload starts with a byte of version nibble 4 or 6. *)
Definition routable (data : list byte) : Prop :=
  ∃ b0, data !! 0%nat = Some b0 ∧ (nibble b0 = 0x40 ∨ nibble b0 = 0x60).

(** The outbound payloads [sends], each with what its turn gets from
    outside, as events of the write loop. *)
Definition payload_events (sends : list (env * list byte)) : list (env * event) :=
  (λ x, (x.1, FromRecv x.2)) <$> sends.

(** Every turn reads the clock less than 30 seconds after the time any
    earlier turn would stamp. *)
Fixpoint within_window (inputs : list (env * event)) : Prop :=
  match inputs with
  | [] => True
  | (e, _) :: rest =>
      Forall (λ x, Since (since_now x.1) (stamp_now e) < 30 * Second) rest
      ∧ within_window rest
  end.

(** The outcome ends the loop of [read]. *)
Definition ends_read (r : read_outcome) : Prop :=
  match r with
  | ReadPanic | ReadReturn _ => True
  | _ => False
  end.

(** The frame [deliver] writes for a MAC it has resolved. *)
Definition frame_to (tun : TunAdapter) (b0 : byte) (data : list byte) (m : macAddress) : Frame :=
  {| frame_dst := m; frame_src := mymac (icmpv6 tun);
     frame_proto := proto_of b0; frame_payload := data |}.

(** [tun'] has the fields of [tun] that are not the neighbour cache. *)
Definition same_adapter (tun tun' : TunAdapter) : Prop :=
  addr tun' = addr tun ∧ subnet tun' = subnet tun ∧ iface tun' = iface tun
  ∧ isOpen tun' = isOpen tun ∧ mtu tun' = mtu tun
  ∧ mymac (icmpv6 tun') = mymac (icmpv6 tun).

(** [tun'] is [tun] with a cache that has grown by unlearned entries for
    on-link keys only: the learned entries are the same, no key is gone,
    and every key is old or on-link. *)
Definition grown_from (tun tun' : TunAdapter) : Prop :=
  same_adapter tun tun'
  ∧ (∀ k n, learned_at tun' k n ↔ learned_at tun k n)
  ∧ (∀ k, is_Some (peermacs (icmpv6 tun) !! k) → is_Some (peermacs (icmpv6 tun') !! k))
  ∧ (∀ k, is_Some (peermacs (icmpv6 tun') !! k) →
          is_Some (peermacs (icmpv6 tun) !! k) ∨ on_link tun k).

(** What holds of a device write [x] made by the turn on [ev] that finds
    the adapter as [tun]. *)
Definition turn_wrote (tun : TunAdapter) (e : env) (ev : event) (x : written) : Prop :=
  match x with
  | Solicitation k req =>
      on_link tun k ∧ (∀ n, ¬ learned_at tun k n) ∧ known tun (since_now e) k = false
  | EthernetFrame f =>
      ∃ data b0 k n,
        ev = FromRecv data ∧ data !! 0%nat = Some b0
        ∧ (nibble b0 = 0x40 ∨ nibble b0 = 0x60)
        ∧ on_link tun k ∧ learned_at tun k n
        ∧ f = frame_to tun b0 data (mac n)
  | RawPacket data =>
      ev = FromRecv data ∧ ∃ ifc, iface tun = Some ifc ∧ IsTAP ifc = false
  | TooBig _ => ∃ reject, ev = FromReject reject
  end.

(** The notifications [rejects], each with what its turn gets from
    outside, as events of the write loop. *)
Definition reject_events (rejects : list (env * RejectedPacket)) : list (env * event) :=
  (λ x, (x.1, FromReject x.2)) <$> rejects.

(** The device write is an ICMPv6 Packet Too Big message. *)
Definition is_TooBig (x : written) : Prop :=
  match x with
  | TooBig _ => True
  | _ => False
  end.

(** The device write is the outbound payload itself, framed or not. *)
Definition is_payload (x : written) : Prop :=
  match x with
  | EthernetFrame _ | RawPacket _ => True
  | _ => False
  end.

(** Among the device writes [w] there is one of the payload itself. *)
Definition payload_written (w : list written) : Prop :=
  ∃ x, x ∈ w ∧ is_payload x.

(** ** Sample values *)

Module Sample.

Definition own_addr : Address :=
  [# x02; x00; x00; x00; x00; x00; x00; x00; x00; x00; x00; x00; x00; x00; x00; x01].

Definition own_subnet : Subnet :=
  [# x03; x00; x00; x00; x00; x00; x00; x00].

Definition own_mac : macAddress := [# x02; x00; x00; x00; x00; x02].

Definition host_mac : macAddress := [# x0a; x0b; x0c; x0d; x0e; x0f].

Definition adapter (ifc : option Interface) (cache : gmap Address neighbor) : TunAdapter :=
  {| addr := own_addr; subnet := own_subnet;
     icmpv6 := {| peermacs := cache; mymac := own_mac |};
     mtu := 1280; iface := ifc; isOpen := true |}.

Definition tap : option Interface := Some {| IsTAP := true |}.
Definition tun : option Interface := Some {| IsTAP := false |}.

(** An Ethernet header for a frame from the host to the adapter. *)
Definition ether_header (hi lo : byte) : list byte :=
  vec_to_list own_mac ++ vec_to_list host_mac ++ [hi; lo].

(** A 20-byte IPv4 header: total length 20, and the byte at offset 6
    (flags and the high bits of the fragment offset) is 58: "more
    fragments" is set and the offset is not zero. *)
Definition ipv4_fragment : list byte :=
  [x45; x00; x00; x14; x00; x01; x3a; x00; x40; x11; x00; x00;
   x0a; x00; x00; x01; x0a; x00; x00; x02].

(** The same header, unfragmented ("don't fragment" set). *)
Definition ipv4_packet : list byte :=
  [x45; x00; x00; x14; x00; x01; x40; x00; x40; x11; x00; x00;
   x0a; x00; x00; x01; x0a; x00; x00; x02].

(** Twenty bytes whose version nibble is 5. *)
Definition version5_packet : list byte := x50 :: replicate 19 x00.

(** An address in the adapter's subnet, and one outside of it. *)
Definition subnet_peer : Address :=
  [# x03; x00; x00; x00; x00; x00; x00; x00; x00; x00; x00; x00; x00; x00; x00; x05].

Definition remote_addr : Address :=
  [# x02; x11; x22; x33; x44; x55; x66; x77; x88; x99; xaa; xbb; xcc; xdd; xee; xff].

(** A turn at clock reading [t] in which the device takes every write. *)
Definition at_time (t : Time) : env :=
  {| since_now := t; stamp_now := t; ndp_write_ok := true; write_ok := true |}.

(** A 40-byte IPv6 header with no payload, next header 59 (none), from
    the adapter's address to [dst]. *)
Definition ipv6_header (dst : Address) : list byte :=
  [x60; x00; x00; x00; x00; x00; x3b; x40]
    ++ vec_to_list own_addr ++ vec_to_list dst.

(** The read buffer of a TAP adapter of MTU 1280 after the device has
    put [frame] at its start. *)
Definition tap_buffer (frame : list byte) : list byte :=
  go_copy (replicate 1294 x00) frame.

Definition builders : Builders :=
  {| CreateNDPL2 := λ _ target, Some (vec_to_list target);
     CreateICMPv6 := λ dst src _ _, Some (visible dst ++ visible src) |}.

(** A learned entry for the host's MAC. *)
Definition host_entry : neighbor :=
  {| mac := host_mac; learned := true; lastsolicitation := 0 |}.

(** A 40-byte IPv6 header with no payload and next header 58 (ICMPv6), from
    the host to [dst]. *)
Definition icmpv6_header (dst : Address) : list byte :=
  [x60; x00; x00; x00; x00; x00; x3a; xff]
    ++ vec_to_list subnet_peer ++ vec_to_list dst.

(** Platform defaults with the largest MTU an interface can have. *)
Definition platform : platformDefaults :=
  {| MaximumIfMTU := 65535; DefaultIfMTU := 65535;
     DefaultIfName := "auto"; DefaultIfTAPMode := false |}.

End Sample.

(** * Properties *)

(** ** Slices *)

Lemma at_index_drop (s : list byte) (o k : Z) :
  0 ≤ o → 0 ≤ k →
  at_index s (o + k) = drop (Z.to_nat o) s !! Z.to_nat k.
Proof.
  intros Ho Hk. unfold at_index.
  rewrite bool_decide_true by lia.
  rewrite lookup_drop. f_equal. lia.
Qed.

Lemma at_index_drop_0 (s : list byte) (o : Z) :
  0 ≤ o → at_index s o = drop (Z.to_nat o) s !! 0%nat.
Proof.
  intros Ho. replace o with (o + 0) at 1 by lia.
  now rewrite at_index_drop.
Qed.

Lemma at_index_Some_lt (s : list byte) (i : Z) (b : byte) :
  at_index s i = Some b → 0 ≤ i < Z.of_nat (length s).
Proof.
  unfold at_index. case_bool_decide; [|discriminate].
  intros Hb%lookup_lt_Some. lia.
Qed.

Lemma at_index_lt_is_Some (s : list byte) (i : Z) :
  0 ≤ i < Z.of_nat (length s) → is_Some (at_index s i).
Proof.
  intros Hi. unfold at_index. rewrite bool_decide_true by lia.
  apply lookup_lt_is_Some. lia.
Qed.

Lemma slice_range_length (s p : list byte) (lo hi : Z) :
  slice_range s lo hi = Some p → Z.of_nat (length p) = hi - lo.
Proof.
  unfold slice_range. case_bool_decide as Hb; [|discriminate].
  intros [= <-]. rewrite length_take, length_drop. lia.
Qed.

Lemma reslice_Some_iff (s : GoSlice) (lo hi : Z) :
  is_Some (reslice s lo hi) ↔ 0 ≤ lo ∧ lo ≤ hi ∧ hi ≤ cap s.
Proof.
  unfold reslice. case_bool_decide as Hb; split; intros Hs; done.
Qed.

Lemma len_le_cap (s : GoSlice) : len s ≤ cap s.
Proof. unfold len, cap. lia. Qed.

(** ** The read loop *)

Lemma ether_offset_nonneg tap : 0 ≤ ether_offset tap.
Proof. unfold ether_offset, tun_ETHER_HEADER_LENGTH. destruct tap; lia. Qed.

(** The switch lets a buffer through exactly when the header behind the
    offset declares the number of bytes read. *)
Lemma switch_passes_iff (buf : list byte) (o n : Z) :
  0 ≤ o →
  (is_ipv6_of_length buf o n = Some true
   ∨ (is_ipv6_of_length buf o n = Some false
      ∧ is_ipv4_of_length buf o n = Some true))
  ↔ declared_length (drop (Z.to_nat o) buf) = Some (n - o).
Proof.
  intros Ho. unfold is_ipv6_of_length, is_ipv4_of_length, declared_length.
  rewrite (at_index_drop_0 buf o Ho).
  rewrite !(at_index_drop buf o) by lia.
  change (Z.to_nat 4) with 4%nat. change (Z.to_nat 5) with 5%nat.
  change (Z.to_nat 2) with 2%nat. change (Z.to_nat 3) with 3%nat.
  set (ip := drop (Z.to_nat o) buf).
  destruct (ip !! 0%nat) as [b0|]; simpl; [|intuition discriminate].
  case_bool_decide as H6.
  - rewrite (bool_decide_false (nibble b0 = 64)) by (rewrite H6; lia).
    destruct (ip !! 4%nat) as [b4|]; simpl; [|intuition discriminate].
    destruct (ip !! 5%nat) as [b5|]; simpl; [|intuition discriminate].
    case_bool_decide as Hn; split.
    + intros _. f_equal. lia.
    + intros _. by left.
    + intros [?|[_ ?]]; discriminate.
    + intros [= Hd]. lia.
  - case_bool_decide as H4; [|intuition discriminate].
    destruct (ip !! 2%nat) as [b2|]; simpl; [|intuition discriminate].
    destruct (ip !! 3%nat) as [b3|]; simpl; [|intuition discriminate].
    case_bool_decide as Hn; split.
    + intros _. f_equal. lia.
    + intros _. by right.
    + intros [?|[_ ?]]; discriminate.
    + intros [= Hd]. lia.
Qed.

Lemma forward_length tap buf o n packet parsed :
  forward tap buf o n = Some (Forwarded packet parsed) →
  packet = take (Z.to_nat (n - o)) (drop (Z.to_nat o) buf)
  ∧ Z.of_nat (length packet) = n - o.
Proof.
  unfold forward. destruct (at_index buf (o + 6)) as [b6|]; simpl; [|done].
  destruct (slice_range buf o n) as [payload|] eqn:Hs; simpl; [|done].
  intros [= <- _]. unfold GetBytes. simpl. split.
  - unfold slice_range in Hs. case_bool_decide; [|done]. by injection Hs as <-.
  - by apply slice_range_length in Hs.
Qed.

Lemma read_packet_Forwarded (tap : bool) buf n packet parsed :
  read_packet tap buf n = Some (Forwarded packet parsed) →
  declared_length (drop (Z.to_nat (ether_offset tap)) buf) = Some (n - ether_offset tap)
  ∧ forward tap buf (ether_offset tap) n = Some (Forwarded packet parsed).
Proof.
  unfold read_packet.
  pose proof (ether_offset_nonneg tap) as Ho.
  pose proof (switch_passes_iff buf (ether_offset tap) n Ho) as Hsw.
  destruct (is_ipv6_of_length buf _ n) as [[]|]; simpl; [|
    destruct (is_ipv4_of_length buf _ n) as [[]|]; simpl |]; try done.
  - intros Hf. split; [apply Hsw; by left | done].
  - intros Hf. split; [apply Hsw; by right | done].
Qed.

Lemma read_packet_mismatch (tap : bool) buf n :
  ether_offset tap + 6 ≤ Z.of_nat (length buf) →
  declared_length (drop (Z.to_nat (ether_offset tap)) buf) ≠ Some (n - ether_offset tap) →
  read_packet tap buf n = Some Dropped.
Proof.
  intros Hlen Hd. unfold read_packet.
  pose proof (ether_offset_nonneg tap) as Ho.
  pose proof (switch_passes_iff buf (ether_offset tap) n Ho) as Hsw.
  assert (∀ k, 0 ≤ k < 6 → is_Some (at_index buf (ether_offset tap + k))) as Hidx.
  { intros k Hk. apply at_index_lt_is_Some. lia. }
  assert (is_Some (is_ipv6_of_length buf (ether_offset tap) n)) as [v6 Hv6].
  { unfold is_ipv6_of_length.
    destruct (Hidx 0) as [b0 Hb0]; [lia|]. rewrite Z.add_0_r in Hb0. rewrite Hb0. simpl.
    destruct (Hidx 4) as [b4 ->]; [lia|]. destruct (Hidx 5) as [b5 ->]; [lia|].
    simpl. by case_bool_decide. }
  assert (is_Some (is_ipv4_of_length buf (ether_offset tap) n)) as [v4 Hv4].
  { unfold is_ipv4_of_length.
    destruct (Hidx 0) as [b0 Hb0]; [lia|]. rewrite Z.add_0_r in Hb0. rewrite Hb0. simpl.
    destruct (Hidx 2) as [b2 ->]; [lia|]. destruct (Hidx 3) as [b3 ->]; [lia|].
    simpl. by case_bool_decide. }
  rewrite Hv6 in *. simpl. destruct v6.
  { destruct Hd. apply Hsw. by left. }
  rewrite Hv4 in *. simpl. destruct v4; [|done].
  destruct Hd. apply Hsw. by right.
Qed.

Lemma read_lookup tun inputs (i : nat) r :
  read tun inputs !! i = Some r →
  ∃ res buf, inputs !! i = Some (res, buf) ∧ read_step tun res buf = r.
Proof.
  revert i. induction inputs as [|[res buf] rest IH]; intros i; simpl; [done|].
  destruct (read_step tun res buf) eqn:Hstep; destruct i as [|i]; simpl;
    try (intros [= <-]; by eauto); try done; apply IH.
Qed.

Lemma byte_Z_range (b : byte) : 0 ≤ byte_Z b ≤ 255.
Proof.
  unfold byte_Z. pose proof (Byte.to_N_bounded b) as Hb. lia.
Qed.

(** A packet cut to the length its header declares still carries that
    header, as soon as the length covers the length field. *)
Lemma declared_length_take (ip : list byte) (d : Z) :
  declared_length ip = Some d → 4 ≤ d →
  declared_length (take (Z.to_nat d) ip) = Some d.
Proof.
  intros Hd H4.
  assert (∀ i : nat, Z.of_nat i < d → take (Z.to_nat d) ip !! i = ip !! i) as Htake.
  { intros i Hi. apply lookup_take_lt. lia. }
  revert Hd. unfold declared_length.
  destruct (ip !! 0%nat) as [b0|] eqn:H0; [|done].
  rewrite (Htake 0%nat), H0 by lia. cbn [mbind option_bind].
  case_bool_decide as Hv6; [|case_bool_decide as Hv4; [|done]].
  - destruct (ip !! 4%nat) as [b4|] eqn:Hb4; [|done].
    destruct (ip !! 5%nat) as [b5|] eqn:Hb5; [|done].
    cbn [mbind option_bind]. intros [= Hd].
    pose proof (byte_Z_range b4). pose proof (byte_Z_range b5).
    unfold tun_IPv6_HEADER_LENGTH in *.
    rewrite (Htake 4%nat), (Htake 5%nat), Hb4, Hb5 by lia.
    cbn [mbind option_bind]. by f_equal.
  - destruct (ip !! 2%nat) as [b2|] eqn:Hb2; [|done].
    destruct (ip !! 3%nat) as [b3|] eqn:Hb3; [|done].
    cbn [mbind option_bind]. intros [= Hd].
    rewrite (Htake 2%nat), (Htake 3%nat), Hb2, Hb3 by lia.
    cbn [mbind option_bind]. by f_equal.
Qed.

Lemma declared_length_unknown_family (ip : list byte) (b0 : byte) :
  ip !! 0%nat = Some b0 → nibble b0 ≠ 0x40 → nibble b0 ≠ 0x60 →
  declared_length ip = None.
Proof.
  intros Hb H4 H6. unfold declared_length. rewrite Hb. simpl.
  by rewrite !bool_decide_false.
Qed.

Lemma read_packet_unknown_family tap buf n b0 :
  at_index buf (ether_offset tap) = Some b0 →
  nibble b0 ≠ 0x40 → nibble b0 ≠ 0x60 →
  read_packet tap buf n = Some Dropped.
Proof.
  intros Hb H4 H6. unfold read_packet, is_ipv6_of_length, is_ipv4_of_length.
  rewrite Hb. simpl. by rewrite !bool_decide_false.
Qed.

(** C2: every payload the read loop forwards has the length its header
    declares, and the byte count read is that length plus the Ethernet
    offset: the payload is the de-framed buffer cut to the declared length,
    and carries that header itself once it is long enough to hold the
    length field; a buffer whose header declares another length, or whose
    first payload byte has a version nibble other than 4 and 6, is dropped
    and the loop goes on with the next read. *)
Theorem read_forwards_declared_length (tun : TunAdapter) (ifc : Interface)
    (inputs : list (read_result * list byte)) :
  iface tun = Some ifc →
  let o := ether_offset (IsTAP ifc) in
  (∀ (i : nat) packet parsed,
     read tun inputs !! i = Some (Forwarded packet parsed) →
     ∃ n buf, inputs !! i = Some (ReadN n, buf)
       ∧ n = Z.of_nat (length packet) + o
       ∧ declared_length (drop (Z.to_nat o) buf) = Some (Z.of_nat (length packet))
       ∧ packet = take (length packet) (drop (Z.to_nat o) buf)
       ∧ ((4 ≤ length packet)%nat →
          declared_length packet = Some (Z.of_nat (length packet))))
  ∧ (∀ n buf rest,
       o + 6 ≤ Z.of_nat (length buf) →
       declared_length (drop (Z.to_nat o) buf) ≠ Some (n - o) →
       read tun ((ReadN n, buf) :: rest) = Dropped :: read tun rest)
  ∧ (∀ n buf rest b0,
       at_index buf o = Some b0 → nibble b0 ≠ 0x40 → nibble b0 ≠ 0x60 →
       read tun ((ReadN n, buf) :: rest) = Dropped :: read tun rest).
Proof.
  intros Hifc o. split; [|split].
  - intros i packet parsed Hi.
    apply read_lookup in Hi as (res & buf & Hin & Hstep).
    unfold read_step in Hstep. rewrite Hifc in Hstep.
    destruct res as [n|err]; [|by destruct (isOpen tun)].
    destruct (read_packet (IsTAP ifc) buf n) as [r|] eqn:Hr; simpl in Hstep; [|done].
    subst r. apply read_packet_Forwarded in Hr as [Hd Hf].
    apply forward_length in Hf as [Hp Hl]. fold o in Hd, Hp, Hl.
    rewrite <- Hl in Hd, Hp. rewrite Nat2Z.id in Hp.
    exists n, buf. repeat split; [done|lia|done|done|].
    intros Hlen. rewrite Hp at 1. rewrite <- (Nat2Z.id (length packet)) at 1.
    apply declared_length_take; [done|lia].
  - intros n buf rest Hlen Hd. simpl. unfold read_step. rewrite Hifc.
    by rewrite (read_packet_mismatch _ _ _ Hlen Hd).
  - intros n buf rest b0 Hb H4 H6. simpl. unfold read_step. rewrite Hifc.
    by rewrite (read_packet_unknown_family _ _ n _ Hb H4 H6).
Qed.

(** The code's test for handing a forwarded packet to [ParsePacket]: TAP
    mode and a byte 58 at offset 6 behind the Ethernet header, whatever the
    family of the packet. *)
Lemma parse_dispatch_condition (tun : TunAdapter) (ifc : Interface) n buf packet parsed :
  iface tun = Some ifc →
  read_step tun (ReadN n) buf = Forwarded packet parsed →
  is_Some parsed ↔
    IsTAP ifc = true
    ∧ ∃ b6, at_index buf (ether_offset (IsTAP ifc) + 6) = Some b6 ∧ byte_Z b6 = 58.
Proof.
  intros Hifc. unfold read_step. rewrite Hifc.
  destruct (read_packet (IsTAP ifc) buf n) as [r|] eqn:Hr; simpl; [|done].
  intros ->. apply read_packet_Forwarded in Hr as [_ Hf].
  unfold forward in Hf.
  destruct (at_index buf (ether_offset (IsTAP ifc) + 6)) as [b6|]; simpl in Hf; [|done].
  destruct (slice_range buf _ n); simpl in Hf; [|done].
  injection Hf as _ <-.
  case_bool_decide as H58; destruct (IsTAP ifc); split;
    try (intros [? ?]; done); try (intros [? (? & [= <-] & ?)]; done).
  intros _. eauto.
Qed.

(** C6: a TAP adapter reads an Ethernet frame that carries a well-formed
    20-byte IPv4 fragment whose byte at offset 6 is 58. The frame passes the
    length validation as IPv4, is forwarded, and is handed to
    [ParsePacket], although it is not an IPv6 packet. *)
Theorem parse_dispatched_for_ipv4 :
  let frame := Sample.ether_header x08 x00 ++ Sample.ipv4_fragment in
  read_step (Sample.adapter Sample.tap ∅) (ReadN 34) (Sample.tap_buffer frame)
    = Forwarded Sample.ipv4_fragment (Some frame)
  ∧ (∃ b0, Sample.ipv4_fragment !! 0%nat = Some b0 ∧ nibble b0 = 0x40)
  ∧ declared_length Sample.ipv4_fragment = Some 20.
Proof.
  intros frame. split; [|split].
  - vm_compute. reflexivity.
  - exists x45. split; reflexivity.
  - reflexivity.
Qed.

(** ** The write loop *)

Lemma known_false_iff (tun : TunAdapter) (now : Time) (k : Address) :
  known tun now k = false ↔
    peermacs (icmpv6 tun) !! k = None
    ∨ ∃ neigh, peermacs (icmpv6 tun) !! k = Some neigh
        ∧ 30 * Second ≤ Since now (lastsolicitation neigh).
Proof.
  unfold known, Seconds_lt_30.
  destruct (peermacs (icmpv6 tun) !! k) as [neigh|]; [|by intuition].
  case_bool_decide as Hlt; split.
  - done.
  - intros [?|(n' & [= <-] & Hge)]; [done|lia].
  - intros _. right. exists neigh. split; [done|lia].
  - done.
Qed.

Lemma known_after_solicitation (tun : TunAdapter) (m : gmap Address neighbor)
    (stamp now : Time) (k : Address) :
  Since now stamp < 30 * Second →
  known (set_peermacs tun (<[k := solicited stamp]> m)) now k = true.
Proof.
  intros Hlt. unfold known, set_peermacs. simpl.
  rewrite lookup_insert_eq. simpl. unfold Seconds_lt_30.
  by rewrite bool_decide_true.
Qed.

Lemma no_solicitation_for k w :
  no_solicitation w → solicitations_for k w = [].
Proof.
  intros Hno. unfold solicitations_for.
  induction w as [|x w IH]; [done|].
  assert (no_solicitation w) as Hw.
  { intros k' r' Hin. eapply Hno. right. exact Hin. }
  rewrite filter_cons. case_decide as Hd; [|by apply IH].
  destruct x as [t req| | |]; try discriminate Hd.
  destruct (Hno t req). by left.
Qed.

Ltac no_solicit :=
  let Hin := fresh "Hin" in
  intros ? ? Hin;
  repeat (apply elem_of_cons in Hin as [Hin|Hin]; [discriminate|]);
  by apply elem_of_nil in Hin.

Section WriteFacts.
Context `{Builders}.

Ltac unfold_write :=
  unfold write_step, write_recv, write_reject, write_tap, deliver, resolve,
    sendndp, release, write_failed, leave in *.

(** What a turn writes and what it does to the cache: nothing of either,
    or one solicitation, first on the wire, for a key that was not
    [known]; the cache then holds the fresh entry once the device has
    taken the solicitation. *)
Lemma write_step_shape (tun : TunAdapter) (e : env) (ev : event) :
  let r := write_step tun e ev in
  (no_solicitation (wire r) ∧ st r = tun)
  ∨ ∃ k req tail,
      wire r = Solicitation k req :: tail
      ∧ no_solicitation tail
      ∧ known tun (since_now e) k = false
      ∧ CreateNDPL2 tun k = Some req
      ∧ (∀ n, peermacs (icmpv6 tun) !! k = Some n → learned n = false)
      ∧ if ndp_write_ok e
        then st r = set_peermacs tun
                      (<[k := solicited (stamp_now e)]> (peermacs (icmpv6 tun)))
        else ctl r = Panic ∧ st r = tun.
Proof.
  unfold_write. destruct ev as [reject|data].
  - left. repeat case_match; simpl; (split; [no_solicit|done]).
  - repeat case_match; simplify_eq/=;
      try (left; split; [no_solicit|done]);
      right; eexists _, _, _; (split; [reflexivity|]);
      (split; [no_solicit|]); (split; [done|]); (split; [done|]).
    all: split; [intros n Hn; by simplify_eq/= | done].
Qed.
End WriteFacts.

Lemma solicitations_for_head (k k' : Address) req tail :
  no_solicitation tail →
  solicitations_for k (Solicitation k' req :: tail)
  = if bool_decide (k' = k) then [Solicitation k' req] else [].
Proof.
  intros Hno. unfold solicitations_for. rewrite filter_cons.
  fold (solicitations_for k tail). rewrite (no_solicitation_for k tail Hno).
  case_bool_decide; [by rewrite decide_True | by rewrite decide_False].
Qed.

Lemma solicitations_for_app k w1 w2 :
  solicitations_for k (w1 ++ w2) = solicitations_for k w1 ++ solicitations_for k w2.
Proof. unfold solicitations_for. apply filter_app. Qed.

Lemma solicitations_for_elem k w :
  solicitations_for k w ≠ [] → ∃ req, Solicitation k req ∈ w.
Proof.
  unfold solicitations_for. intros Hne.
  destruct (filter _ w) as [|x l] eqn:Hf; [done|].
  assert (x ∈ filter (λ x, match x with
                           | Solicitation t _ => bool_decide (t = k)
                           | _ => false
                           end = true) w) as Hx by (rewrite Hf; left).
  apply list_elem_of_filter in Hx as [Hp Hx].
  destruct x as [t req| | |]; try discriminate Hp.
  apply bool_decide_eq_true in Hp as ->. eauto.
Qed.

Section Throttle.
Context `{Builders}.

Lemma write_step_solicits (tun : TunAdapter) (e : env) (ev : event) k req :
  Solicitation k req ∈ wire (write_step tun e ev) →
  known tun (since_now e) k = false
  ∧ CreateNDPL2 tun k = Some req
  ∧ (∀ n, peermacs (icmpv6 tun) !! k = Some n → learned n = false)
  ∧ if ndp_write_ok e
    then st (write_step tun e ev)
         = set_peermacs tun (<[k := solicited (stamp_now e)]> (peermacs (icmpv6 tun)))
    else ctl (write_step tun e ev) = Panic ∧ st (write_step tun e ev) = tun.
Proof.
  intros Hin.
  destruct (write_step_shape tun e ev) as [[Hno _]|(k' & req' & tail & Hw & Hno & Hk & Hc & Hl & Hst)].
  - by destruct (Hno k req).
  - rewrite Hw in Hin. apply elem_of_cons in Hin as [[= -> ->]|Hin]; [done|].
    by destruct (Hno k req).
Qed.

Lemma write_step_count (tun : TunAdapter) (e : env) (ev : event) k :
  (length (solicitations_for k (wire (write_step tun e ev))) ≤ 1)%nat.
Proof.
  destruct (write_step_shape tun e ev) as [[Hno _]|(k' & req' & tail & Hw & Hno & _)].
  - rewrite (no_solicitation_for k _ Hno). simpl. lia.
  - rewrite Hw, (solicitations_for_head _ _ _ _ Hno).
    case_bool_decide; simpl; lia.
Qed.

Lemma write_step_known_silent (tun : TunAdapter) (e : env) (ev : event) k :
  known tun (since_now e) k = true →
  solicitations_for k (wire (write_step tun e ev)) = [].
Proof.
  intros Hk.
  destruct (solicitations_for k (wire (write_step tun e ev))) as [|x l] eqn:Hs; [done|].
  destruct (solicitations_for_elem k (wire (write_step tun e ev))) as [req Hin].
  { by rewrite Hs. }
  apply write_step_solicits in Hin as [Hf _]. congruence.
Qed.

Lemma sendndp_wire (tun : TunAdapter) (e : env) (k : Address) :
  wire (sendndp tun e k)
  = if known tun (since_now e) k then []
    else match CreateNDPL2 tun k with
         | Some req => [Solicitation k req]
         | None => []
         end.
Proof.
  unfold sendndp, leave. destruct (known tun (since_now e) k); [done|].
  destruct (CreateNDPL2 tun k); [|done]. by destruct (ndp_write_ok e).
Qed.

Lemma write_two_wire (tun : TunAdapter) e1 ev1 e2 ev2 :
  wire (write tun [(e1, ev1); (e2, ev2)])
  = wire (write_step tun e1 ev1)
    ++ match ctl (write_step tun e1 ev1) with
       | Continue => wire (write_step (st (write_step tun e1 ev1)) e2 ev2)
       | _ => []
       end.
Proof.
  cbn [write].
  destruct (ctl (write_step tun e1 ev1)); cbn [wire]; rewrite ?app_nil_r; try done.
  destruct (ctl (write_step _ e2 ev2)); cbn [wire]; by rewrite ?app_nil_r.
Qed.

(** C1, as amended: a turn of the write loop sends a solicitation for a
    key only if the cache has no entry for it or at least 30 seconds have
    passed since the solicitation recorded for it; over two outbound
    payloads, the second less than 30 seconds after the first, at most
    one solicitation for a key is sent; and once 30 seconds have passed
    since a solicitation was recorded, [sendndp] sends for that key
    again. *)
Theorem solicitation_throttled (tun : TunAdapter) (e1 e2 : env)
    (d1 d2 : list byte) (k : Address) :
  (∀ ev req,
     Solicitation k req ∈ wire (write_step tun e1 ev) →
     peermacs (icmpv6 tun) !! k = None
     ∨ ∃ neigh, peermacs (icmpv6 tun) !! k = Some neigh
         ∧ 30 * Second ≤ Since (since_now e1) (lastsolicitation neigh))
  ∧ (Since (since_now e2) (stamp_now e1) < 30 * Second →
     (length (solicitations_for k
                (wire (write tun [(e1, FromRecv d1); (e2, FromRecv d2)]))) ≤ 1)%nat)
  ∧ (∀ req1 req2,
       let r1 := write_step tun e1 (FromRecv d1) in
       Solicitation k req1 ∈ wire r1 →
       ndp_write_ok e1 = true →
       30 * Second ≤ Since (since_now e2) (stamp_now e1) →
       CreateNDPL2 (st r1) k = Some req2 →
       wire (sendndp (st r1) e2 k) = [Solicitation k req2]).
Proof.
  split; [|split].
  - intros ev req Hin. apply write_step_solicits in Hin as [Hk _].
    by apply known_false_iff.
  - intros Hlt. rewrite write_two_wire.
    set (r1 := write_step tun e1 (FromRecv d1)).
    pose proof (write_step_count tun e1 (FromRecv d1) k) as Hc1. fold r1 in Hc1.
    rewrite solicitations_for_app, length_app.
    destruct (ctl r1) eqn:Hctl;
      try (change (solicitations_for k []) with (@nil written); cbn [length]; lia).
    pose proof (write_step_count (st r1) e2 (FromRecv d2) k) as Hc2.
    destruct (solicitations_for k (wire r1)) as [|x l] eqn:Hs1; [cbn [length]; lia|].
    destruct (solicitations_for_elem k (wire r1)) as [req Hin]; [by rewrite Hs1|].
    apply write_step_solicits in Hin as (_ & _ & _ & Hst). fold r1 in Hst.
    destruct (ndp_write_ok e1); [|destruct Hst; congruence].
    rewrite write_step_known_silent; [cbn [length] in *; lia|].
    rewrite Hst. by apply known_after_solicitation.
  - intros req1 req2 r1 Hin Hok Hge Hreq.
    apply write_step_solicits in Hin as (_ & _ & _ & Hst). fold r1 in Hst.
    rewrite Hok in Hst. rewrite sendndp_wire, Hreq.
    replace (known (st r1) (since_now e2) k) with false; [done|].
    symmetry. apply known_false_iff. right. exists (solicited (stamp_now e1)).
    rewrite Hst. simpl. by rewrite lookup_insert_eq.
Qed.
End Throttle.

Section Policy.
Context `{Builders}.

(** C9: when [sendndp] solicits and the device takes the request, the
    entry for the address is replaced as a whole by one that holds only
    the new time: the MAC and the [learned] flag recorded before are back
    to their zero values. The same holds for every solicitation a turn of
    the write loop sends, and no other entry changes. *)
Theorem solicitation_replaces_entry (tun : TunAdapter) (e : env) :
  ndp_write_ok e = true →
  (∀ destAddr old req,
     peermacs (icmpv6 tun) !! destAddr = Some old →
     wire (sendndp tun e destAddr) = [Solicitation destAddr req] →
     peermacs (icmpv6 (st (sendndp tun e destAddr))) !! destAddr
     = Some {| mac := zero_bytes 6; learned := false;
               lastsolicitation := stamp_now e |})
  ∧ (∀ ev k req,
       Solicitation k req ∈ wire (write_step tun e ev) →
       peermacs (icmpv6 (st (write_step tun e ev)))
       = <[k := {| mac := zero_bytes 6; learned := false;
                   lastsolicitation := stamp_now e |}]> (peermacs (icmpv6 tun))).
Proof.
  intros Hok. split.
  - intros destAddr old req Hold. unfold sendndp, leave.
    destruct (known tun (since_now e) destAddr); [done|].
    destruct (CreateNDPL2 tun destAddr); [|done].
    rewrite Hok. simpl. intros _. by rewrite lookup_insert_eq.
  - intros ev k req Hin. apply write_step_solicits in Hin as (_ & _ & _ & Hst).
    rewrite Hok in Hst. by rewrite Hst.
Qed.

Lemma resolve_unlearned (tun : TunAdapter) (e : env) (destAddr : Address) :
  (∀ n, peermacs (icmpv6 tun) !! destAddr = Some n → learned n = false) →
  resolve tun e destAddr
  = match peermacs (icmpv6 tun) !! addr tun with
    | Some {| mac := m; learned := true |} => (sendndp tun e destAddr, Some m)
    | _ => (sendndp tun e (addr tun), None)
    end.
Proof.
  intros Hun. unfold resolve.
  destruct (peermacs (icmpv6 tun) !! destAddr) as [[m [] t]|] eqn:Hd; try done.
  by specialize (Hun _ eq_refl).
Qed.

(** C4, as amended: in TAP mode, for a payload whose chosen destination
    has no learned MAC (the builder and the device taking the
    solicitation): if the adapter's own address has a learned MAC, the
    frame goes out to that MAC, after a solicitation for the destination
    unless one was recorded less than 30 seconds ago; if the own address
    has no learned MAC either, a solicitation for the own address is
    sent, again unless one was recorded less than 30 seconds ago, and the
    payload is released without being written. *)
Theorem unresolved_destination_policy (tun : TunAdapter) (e : env) (ifc : Interface)
    (data : list byte) (b0 : byte) (hdr : Address) (request : Address → list byte) :
  iface tun = Some ifc → IsTAP ifc = true →
  at_index data 0 = Some b0 →
  extract_destAddr b0 data = Extracted hdr →
  (∀ k, CreateNDPL2 tun k = Some (request k)) →
  ndp_write_ok e = true →
  let destAddr := choose_destAddr tun b0 hdr in
  let r := write_step tun e (FromRecv data) in
  (∀ n, peermacs (icmpv6 tun) !! destAddr = Some n → learned n = false) →
  (∀ own, peermacs (icmpv6 tun) !! addr tun = Some own → learned own = true →
     wire r
     = (if known tun (since_now e) destAddr then []
        else [Solicitation destAddr (request destAddr)])
       ++ [EthernetFrame {| frame_dst := mac own;
                            frame_src := mymac (icmpv6 tun);
                            frame_proto := proto_of b0;
                            frame_payload := data |}])
  ∧ ((∀ own, peermacs (icmpv6 tun) !! addr tun = Some own → learned own = false) →
     wire r
     = (if known tun (since_now e) (addr tun) then []
        else [Solicitation (addr tun) (request (addr tun))])
     ∧ ctl r = Continue
     ∧ pool r = [data]).
Proof.
  intros Hifc Htap Hb0 Hex Hreq Hok destAddr r Hun.
  assert (r = deliver tun e b0 data destAddr) as Hr.
  { unfold r, write_step, write_recv, write_tap. by rewrite Hifc, Htap, Hb0, Hex. }
  assert (∀ k, sendndp tun e k
               = if known tun (since_now e) k then leave Continue tun
                 else {| ctl := Continue;
                         st := set_peermacs tun
                                 (<[k := solicited (stamp_now e)]> (peermacs (icmpv6 tun)));
                         wire := [Solicitation k (request k)]; pool := [] |}) as Hs.
  { intros k. unfold sendndp. by rewrite Hreq, Hok. }
  rewrite Hr. unfold deliver. rewrite (resolve_unlearned _ _ _ Hun).
  split.
  - intros [m l t] Hown Hl. simpl in Hl. subst l. rewrite Hown, Hs.
    destruct (known tun (since_now e) destAddr); simpl;
      destruct (write_ok e); done.
  - intros Hown.
    assert (match peermacs (icmpv6 tun) !! addr tun with
            | Some {| mac := m; learned := true |} => (sendndp tun e destAddr, Some m)
            | _ => (sendndp tun e (addr tun), None)
            end = (sendndp tun e (addr tun), None)) as ->.
    { destruct (peermacs (icmpv6 tun) !! addr tun) as [[m [] t]|]; try done.
      by specialize (Hown _ eq_refl). }
    rewrite Hs. by destruct (known tun (since_now e) (addr tun)).
Qed.
End Policy.

Lemma vcopy_to_list {n} (k : nat) (dst : vec byte n) (src : list byte) :
  (k ≤ length src)%nat →
  vec_to_list (vcopy k dst src)
  = take (k `min` n) src ++ drop (k `min` n) (vec_to_list dst).
Proof.
  revert k src. induction dst as [|d n dst IH]; intros k src Hk.
  - rewrite Nat.min_0_r. reflexivity.
  - destruct k as [|k]; [done|].
    destruct src as [|s src]; [simpl in Hk; lia|].
    simpl in *. f_equal. apply IH. lia.
Qed.

Lemma destination_field (data : list byte) :
  (40 ≤ length data)%nat →
  vec_to_list (vcopy 16 (zero_bytes 16) (drop 24 data)) = take 16 (drop 24 data).
Proof.
  intros Hlen. rewrite vcopy_to_list by (rewrite length_drop; lia).
  change (16 `min` 16)%nat with 16%nat.
  change (drop 16 (vec_to_list (zero_bytes 16))) with (@nil byte).
  by rewrite app_nil_r.
Qed.

Section Destination.
Context `{Builders}.

(** C3: in TAP mode the address whose MAC is looked up is the adapter's
    own address for an IPv4-shaped payload; for an IPv6-shaped payload it
    is the destination field of the header (bytes 24 to 39) when that
    field is the adapter's address or lies in its subnet, and the
    adapter's own address otherwise. *)
Theorem layer2_destination (tun : TunAdapter) (e : env) (ifc : Interface)
    (data : list byte) (b0 : byte) :
  iface tun = Some ifc → IsTAP ifc = true →
  at_index data 0 = Some b0 →
  (nibble b0 = 0x40 → (20 ≤ length data)%nat →
     write_step tun e (FromRecv data) = deliver tun e b0 data (addr tun))
  ∧ (nibble b0 = 0x60 → (40 ≤ length data)%nat →
     ∀ dst : Address,
       vec_to_list dst = take 16 (drop 24 data) →
       write_step tun e (FromRecv data)
       = deliver tun e b0 data
           (if bool_decide (dst = addr tun
                            ∨ take 8 (vec_to_list dst) = vec_to_list (subnet tun))
            then dst else addr tun)).
Proof.
  intros Hifc Htap Hb0. unfold write_step, write_recv, write_tap.
  rewrite Hifc, Htap, Hb0. unfold extract_destAddr, choose_destAddr. split.
  - intros H4 Hlen. rewrite (bool_decide_false (nibble b0 = 96)) by (rewrite H4; lia).
    rewrite (bool_decide_true (nibble b0 = 64)) by done.
    by rewrite bool_decide_false by lia.
  - intros H6 Hlen dst Hdst.
    rewrite (bool_decide_true (nibble b0 = 96)) by done.
    rewrite (bool_decide_false (nibble b0 = 64)) by (rewrite H6; lia).
    rewrite bool_decide_false by lia.
    assert (vcopy 16 (zero_bytes 16) (drop 24 data) = dst) as ->.
    { apply vec_to_list_inj2. by rewrite destination_field, Hdst. }
    f_equal. unfold bytes_Equal.
    rewrite (take_ge (vec_to_list (addr tun)) 16),
      (take_ge (vec_to_list dst) 16),
      (take_ge (vec_to_list (subnet tun)) 8)
      by (rewrite length_vec_to_list; lia).
    destruct (bool_decide_reflect (vec_to_list (addr tun) = vec_to_list dst))
      as [Ha|Ha]; simpl.
    { rewrite bool_decide_true; [done|]. left. symmetry. by apply vec_to_list_inj2. }
    destruct (bool_decide_reflect
                (vec_to_list (subnet tun) = take 8 (vec_to_list dst)))
      as [Hs|Hs]; simpl.
    { rewrite bool_decide_true; [done|]. by right. }
    rewrite bool_decide_false; [done|].
    intros [->|Hs']; [by destruct Ha | by destruct Hs].
Qed.

(** Once the address is chosen, its MAC is what [resolve] looks up
    first. *)
Lemma resolve_learned (tun : TunAdapter) (e : env) (destAddr : Address) (n : neighbor) :
  peermacs (icmpv6 tun) !! destAddr = Some n → learned n = true →
  resolve tun e destAddr = (leave Continue tun, Some (mac n)).
Proof. intros Hn Hl. unfold resolve. rewrite Hn. destruct n as [m l t]. simpl in Hl. by subst l. Qed.

(** C5: in TAP mode an outbound payload whose first byte has a version
    nibble other than 4 and 6 ends the write loop: the turn returns the
    error "Invalid address family" and the loop returns it, whatever
    events would follow; nothing is written. *)
Theorem invalid_family_ends_write (tun : TunAdapter) (e : env) (ifc : Interface)
    (data : list byte) (b0 : byte) (rest : list (env * event)) :
  iface tun = Some ifc → IsTAP ifc = true →
  at_index data 0 = Some b0 →
  nibble b0 ≠ 0x40 → nibble b0 ≠ 0x60 →
  write_step tun e (FromRecv data)
    = leave (Return (Some "Invalid address family"%string)) tun
  ∧ ctl (write tun ((e, FromRecv data) :: rest))
    = Return (Some "Invalid address family"%string)
  ∧ wire (write tun ((e, FromRecv data) :: rest)) = [].
Proof.
  intros Hifc Htap Hb0 H4 H6.
  assert (write_step tun e (FromRecv data)
          = leave (Return (Some "Invalid address family"%string)) tun) as Hstep.
  { unfold write_step, write_recv, write_tap, extract_destAddr.
    rewrite Hifc, Htap, Hb0. by rewrite !bool_decide_false. }
  split; [done|]. cbn [write]. by rewrite Hstep.
Qed.

(** A payload too short for its header is dropped instead: the turn
    releases the buffer and the loop goes on. *)
Lemma short_payload_dropped (tun : TunAdapter) (e : env) (ifc : Interface)
    (data : list byte) (b0 : byte) :
  iface tun = Some ifc → IsTAP ifc = true →
  at_index data 0 = Some b0 →
  extract_destAddr b0 data = TooShort →
  write_step tun e (FromRecv data) = release tun [] data.
Proof.
  intros Hifc Htap Hb0 Hx. unfold write_step, write_recv, write_tap.
  by rewrite Hifc, Htap, Hb0, Hx.
Qed.

(** The turns that reach line 300 give the buffer back. *)
Lemma continue_releases (tun : TunAdapter) (e : env) (ifc : Interface) (data : list byte) :
  iface tun = Some ifc →
  ctl (write_step tun e (FromRecv data)) = Continue →
  pool (write_step tun e (FromRecv data)) = [data].
Proof.
  intros Hifc. unfold write_step, write_recv, write_tap, deliver, resolve, sendndp,
    release, write_failed, leave.
  rewrite Hifc. repeat case_match; simplify_eq/=; done.
Qed.

(** C8, as amended: the Packet Too Big branch evaluates
    [reject.Packet[8:24]] and [reject.Packet[24:40]] with no check of its
    own, and does so without a panic exactly when the capacity of the
    packet slice is at least 40; a packet of at least 40 bytes is
    therefore always safe, and a shorter one panics when nothing lies
    behind its length. *)
Theorem packet_too_big_bounds (tun : TunAdapter) (ifc : Interface)
    (packet : GoSlice) (mtu : Z) :
  iface tun = Some ifc →
  let r := write_reject tun {| Reason := PacketTooBig; Packet := packet;
                               Detail := DetailInt mtu |} in
  (ctl r = Continue ↔ 40 ≤ cap packet)
  ∧ (ctl r = Panic ↔ cap packet < 40)
  ∧ (40 ≤ len packet → ctl r = Continue)
  ∧ (spare packet = [] → len packet < 40 → ctl r = Panic).
Proof.
  intros Hifc r.
  assert ((40 ≤ cap packet → ctl r = Continue)
          ∧ (cap packet < 40 → ctl r = Panic)) as [Hin Hout].
  { unfold r, write_reject, reslice, leave. simpl. rewrite Hifc. split; intros Hc.
    - rewrite !bool_decide_true by lia. by destruct (CreateICMPv6 _ _ _ _).
    - case_bool_decide; [|done]. by rewrite bool_decide_false by lia. }
  assert (ctl r = Continue ↔ 40 ≤ cap packet) as Hc.
  { split; [|done]. intros Hr. destruct (decide (40 ≤ cap packet)); [done|].
    rewrite Hout in Hr by lia. done. }
  assert (ctl r = Panic ↔ cap packet < 40) as Hp.
  { split; [|done]. intros Hr. destruct (decide (cap packet < 40)); [done|].
    rewrite Hin in Hr by lia. done. }
  repeat split; try tauto.
  - intros Hlen. apply Hin. pose proof (len_le_cap packet). lia.
  - intros Hsp Hlen. apply Hout. unfold cap, len in *. rewrite Hsp. simpl. lia.
Qed.
End Destination.

(** C10: [Close] clears [isOpen] and, when the adapter has no interface,
    returns nil whatever the device would have answered; with an interface
    it returns the result of the device's own close. *)
Theorem Close_without_interface (tun : TunAdapter) (dev_close : option error) :
  isOpen (Close tun dev_close).1 = false
  ∧ (Close tun dev_close).1 = set_isOpen tun false
  ∧ (iface tun = None → (Close tun dev_close).2 = None)
  ∧ (∀ ifc, iface tun = Some ifc → (Close tun dev_close).2 = dev_close).
Proof.
  unfold Close. simpl. destruct (iface tun); simpl; repeat split; done.
Qed.

(** An adapter started with the device name "none" is never set up: it
    keeps the interface it had, and is not opened. *)
Lemma Start_none setup (tun : TunAdapter) (c : NodeConfig) (a : Address) (s : Subnet) :
  IfName c = "none"%string →
  Start setup tun (Some c) a s = (set_addr tun a s, None, false).
Proof. intros Hn. unfold Start. rewrite Hn. done. Qed.

(** ** The properties at sample inputs *)

Module Checks.
Import Sample.

#[local] Existing Instance builders.

Lemma read_forwards_declared_length_witness :
  let frame := ether_header x86 xdd ++ ipv6_header own_addr in
  let short := ether_header x86 xdd ++ [x50] in
  ∃ n buf,
    [(ReadN 15, tap_buffer short); (ReadN 54, tap_buffer frame)] !! 1%nat
      = Some (ReadN n, buf)
    ∧ n = Z.of_nat (length (ipv6_header own_addr)) + 14
    ∧ declared_length (drop 14 buf) = Some 40
    ∧ ipv6_header own_addr = take 40 (drop 14 buf)
    ∧ ((4 ≤ 40)%nat → declared_length (ipv6_header own_addr) = Some 40).
Proof.
  intros frame short.
  destruct (read_forwards_declared_length (adapter tap ∅)
              {| IsTAP := true |}
              [(ReadN 15, tap_buffer short); (ReadN 54, tap_buffer frame)]
              eq_refl) as [Hfwd _].
  apply (Hfwd 1%nat (ipv6_header own_addr) None).
  vm_compute. reflexivity.
Defined.

(** C1: the own address was solicited at time 0 and an IPv4 payload
    arrives exactly 30 seconds later: a solicitation is sent although not
    more than 30 seconds have passed. *)
Lemma solicitation_at_30_seconds :
  let tun := adapter tap {[ own_addr := solicited 0 ]} in
  let e := at_time (30 * Second) in
  ∃ neigh req,
    peermacs (icmpv6 tun) !! own_addr = Some neigh
    ∧ Solicitation own_addr req ∈ wire (write_step tun e (FromRecv ipv4_packet))
    ∧ ¬ (30 * Second < Since (since_now e) (lastsolicitation neigh)).
Proof.
  intros tun e. exists (solicited 0), (vec_to_list own_addr).
  split; [by vm_compute|]. split.
  - assert (wire (write_step tun e (FromRecv ipv4_packet))
            = [Solicitation own_addr (vec_to_list own_addr)]) as ->
      by (vm_compute; reflexivity).
    by left.
  - vm_compute. by intros [=].
Qed.

(** Two IPv4 payloads exactly 30 seconds apart, nothing learned: each of
    them is answered with a solicitation for the own address. *)
Example two_solicitations_30_seconds_apart :
  let twice := [(at_time 0, FromRecv ipv4_packet);
                (at_time (30 * Second), FromRecv ipv4_packet)] in
  solicitations_for own_addr (wire (write (adapter tap ∅) twice))
  = [Solicitation own_addr (vec_to_list own_addr);
     Solicitation own_addr (vec_to_list own_addr)].
Proof. by vm_compute. Qed.

Lemma solicitation_throttled_witness :
  let tun := adapter tap ∅ in
  let twice := [(at_time 0, FromRecv ipv4_packet);
                (at_time (29 * Second), FromRecv ipv4_packet)] in
  (length (solicitations_for own_addr (wire (write tun twice))) ≤ 1)%nat
  ∧ wire (sendndp (st (write_step tun (at_time 0) (FromRecv ipv4_packet)))
            (at_time (31 * Second)) own_addr)
    = [Solicitation own_addr (vec_to_list own_addr)].
Proof.
  intros tun twice.
  destruct (solicitation_throttled (H := builders) tun (at_time 0) (at_time (29 * Second))
              ipv4_packet ipv4_packet own_addr) as (_ & Hfew & _).
  destruct (solicitation_throttled (H := builders) tun (at_time 0) (at_time (31 * Second))
              ipv4_packet ipv4_packet own_addr) as (_ & _ & Hagain).
  split.
  - apply Hfew. reflexivity.
  - apply (Hagain (vec_to_list own_addr)).
    + assert (wire (write_step tun (at_time 0) (FromRecv ipv4_packet))
              = [Solicitation own_addr (vec_to_list own_addr)]) as ->
        by (vm_compute; reflexivity).
      by left.
    + reflexivity.
    + by vm_compute.
    + reflexivity.
Defined.

Lemma layer2_destination_witness :
  let tun := adapter tap ∅ in
  write_step tun (at_time 0) (FromRecv ipv4_packet)
    = deliver tun (at_time 0) x45 ipv4_packet own_addr
  ∧ write_step tun (at_time 0) (FromRecv (ipv6_header remote_addr))
    = deliver tun (at_time 0) x60 (ipv6_header remote_addr)
        (if bool_decide (remote_addr = own_addr
                         ∨ take 8 (vec_to_list remote_addr) = vec_to_list own_subnet)
         then remote_addr else own_addr)
  ∧ write_step tun (at_time 0) (FromRecv (ipv6_header subnet_peer))
    = deliver tun (at_time 0) x60 (ipv6_header subnet_peer)
        (if bool_decide (subnet_peer = own_addr
                         ∨ take 8 (vec_to_list subnet_peer) = vec_to_list own_subnet)
         then subnet_peer else own_addr).
Proof.
  intros tun. split; [|split].
  - apply (layer2_destination (H := builders) tun (at_time 0) {| IsTAP := true |} ipv4_packet x45);
      reflexivity.
  - apply (layer2_destination (H := builders) tun (at_time 0) {| IsTAP := true |}
             (ipv6_header remote_addr) x60); reflexivity.
  - apply (layer2_destination (H := builders) tun (at_time 0) {| IsTAP := true |}
             (ipv6_header subnet_peer) x60); reflexivity.
Defined.

(** The two choices made for the IPv6 payloads above, evaluated. *)
Example remote_goes_to_own_address :
  (if bool_decide (remote_addr = own_addr
                   ∨ take 8 (vec_to_list remote_addr) = vec_to_list own_subnet)
   then remote_addr else own_addr) = own_addr
  ∧ (if bool_decide (subnet_peer = own_addr
                     ∨ take 8 (vec_to_list subnet_peer) = vec_to_list own_subnet)
     then subnet_peer else own_addr) = subnet_peer.
Proof.
  split.
  - rewrite bool_decide_false; [done|]. intros [[=]|[=]].
  - rewrite bool_decide_true; [done|]. by right.
Qed.

(** C4: neither the destination nor the own address has a learned MAC,
    and the own address was solicited one second ago: the payload is
    dropped and no solicitation is issued. *)
Lemma no_solicitation_within_gate :
  let tun := adapter tap {[ own_addr := solicited 0 ]} in
  let r := write_step tun (at_time Second) (FromRecv ipv4_packet) in
  (∀ n, peermacs (icmpv6 tun) !! own_addr = Some n → learned n = false)
  ∧ wire r = []
  ∧ ctl r = Continue
  ∧ pool r = [ipv4_packet].
Proof.
  intros tun r. split; [|by vm_compute].
  intros n. assert (peermacs (icmpv6 tun) !! own_addr = Some (solicited 0)) as ->
    by (by vm_compute).
  by intros [= <-].
Qed.

Lemma unresolved_destination_policy_witness :
  let host := {| mac := host_mac; learned := true; lastsolicitation := 0 |} in
  let e := at_time (5 * Second) in
  wire (write_step (adapter tap {[ own_addr := host ]}) e
          (FromRecv (ipv6_header subnet_peer)))
    = [Solicitation subnet_peer (vec_to_list subnet_peer);
       EthernetFrame {| frame_dst := host_mac; frame_src := own_mac;
                        frame_proto := EtherIPv6;
                        frame_payload := ipv6_header subnet_peer |}]
  ∧ wire (write_step (adapter tap ∅) e (FromRecv (ipv6_header subnet_peer)))
    = [Solicitation own_addr (vec_to_list own_addr)]
  ∧ pool (write_step (adapter tap ∅) e (FromRecv (ipv6_header subnet_peer)))
    = [ipv6_header subnet_peer].
Proof.
  intros host e.
  assert (∀ tun, iface tun = tap → addr tun = own_addr → subnet tun = own_subnet →
            peermacs (icmpv6 tun) !! subnet_peer = None →
            choose_destAddr tun x60 subnet_peer = subnet_peer
            ∧ ∀ n, peermacs (icmpv6 tun) !! choose_destAddr tun x60 subnet_peer = Some n
                   → learned n = false) as Hsel.
  { intros tun _ Ha Hs Hnone.
    assert (choose_destAddr tun x60 subnet_peer = subnet_peer) as ->.
    { unfold choose_destAddr. rewrite Ha, Hs. reflexivity. }
    split; [done|]. intros n. by rewrite Hnone. }
  split; [|split].
  - destruct (unresolved_destination_policy (H := builders) (adapter tap {[ own_addr := host ]}) e
                {| IsTAP := true |} (ipv6_header subnet_peer) x60 subnet_peer
                vec_to_list eq_refl eq_refl eq_refl eq_refl
                (λ _, eq_refl) eq_refl) as [Hfallback _].
    { apply Hsel; reflexivity. }
    apply (Hfallback host); reflexivity.
  - destruct (unresolved_destination_policy (H := builders) (adapter tap ∅) e
                {| IsTAP := true |} (ipv6_header subnet_peer) x60 subnet_peer
                vec_to_list eq_refl eq_refl eq_refl eq_refl
                (λ _, eq_refl) eq_refl) as [_ Hdrop].
    { apply Hsel; reflexivity. }
    apply Hdrop. intros own Hown. by vm_compute in Hown.
  - destruct (unresolved_destination_policy (H := builders) (adapter tap ∅) e
                {| IsTAP := true |} (ipv6_header subnet_peer) x60 subnet_peer
                vec_to_list eq_refl eq_refl eq_refl eq_refl
                (λ _, eq_refl) eq_refl) as [_ Hdrop].
    { apply Hsel; reflexivity. }
    apply Hdrop. intros own Hown. by vm_compute in Hown.
Defined.

Lemma invalid_family_ends_write_witness :
  write_step (adapter tap ∅) (at_time 0) (FromRecv version5_packet)
    = leave (Return (Some "Invalid address family"%string)) (adapter tap ∅)
  ∧ ctl (write (adapter tap ∅)
           [(at_time 0, FromRecv version5_packet); (at_time 1, FromRecv ipv4_packet)])
    = Return (Some "Invalid address family"%string)
  ∧ wire (write (adapter tap ∅)
            [(at_time 0, FromRecv version5_packet); (at_time 1, FromRecv ipv4_packet)])
    = [].
Proof.
  apply (invalid_family_ends_write (H := builders) (adapter tap ∅) (at_time 0)
           {| IsTAP := true |} version5_packet x50);
    [reflexivity | reflexivity | reflexivity | by vm_compute | by vm_compute].
Defined.

(** C7: three turns that take a payload from [tun.Recv] and end without
    [util.PutBytes]: the payload of unknown family in TAP mode, where the
    loop returns the error; any payload when the adapter has no
    interface, where the loop continues; and a payload whose write fails
    after the adapter was closed, where the loop returns nil. *)
Theorem buffer_not_released :
  (let r := write_step (adapter tap ∅) (at_time 0) (FromRecv version5_packet) in
   ctl r = Return (Some "Invalid address family"%string) ∧ pool r = [])
  ∧ (let r := write_step (adapter None ∅) (at_time 0) (FromRecv ipv4_packet) in
     ctl r = Continue ∧ pool r = [])
  ∧ (let closed := set_isOpen (adapter tun ∅) false in
     let e := {| since_now := 0; stamp_now := 0; ndp_write_ok := true;
                 write_ok := false |} in
     let r := write_step closed e (FromRecv ipv4_packet) in
     ctl r = Return None ∧ pool r = []).
Proof. repeat split; by vm_compute. Qed.

(** C8: a rejected packet of 10 bytes in a buffer of capacity 48: shorter
    than 40 bytes, and both slice expressions are in range, so that the
    branch runs to its end. *)
Lemma short_packet_in_bounds :
  let packet := {| visible := replicate 10 x60; spare := replicate 38 x00 |} in
  len packet < 40
  ∧ is_Some (reslice packet 8 24)
  ∧ is_Some (reslice packet 24 40)
  ∧ ctl (write_reject (adapter tap ∅)
           {| Reason := PacketTooBig; Packet := packet; Detail := DetailInt 1280 |})
    = Continue.
Proof.
  intros packet. split; [by vm_compute|].
  split; [by eexists|]. split; [by eexists|]. by vm_compute.
Qed.

Lemma packet_too_big_bounds_witness :
  let whole := {| visible := ipv6_header remote_addr; spare := [] |} in
  let short := {| visible := replicate 10 x60; spare := [] |} in
  ctl (write_reject (adapter tap ∅)
         {| Reason := PacketTooBig; Packet := whole; Detail := DetailInt 1280 |})
    = Continue
  ∧ ctl (write_reject (adapter tap ∅)
           {| Reason := PacketTooBig; Packet := short; Detail := DetailInt 1280 |})
    = Panic.
Proof.
  intros whole short. split.
  - apply (packet_too_big_bounds (H := builders) (adapter tap ∅)
             {| IsTAP := true |} whole 1280 eq_refl).
    by vm_compute.
  - apply (packet_too_big_bounds (H := builders) (adapter tap ∅)
             {| IsTAP := true |} short 1280 eq_refl); [reflexivity | by vm_compute].
Defined.

Lemma solicitation_replaces_entry_witness :
  let host := {| mac := host_mac; learned := true; lastsolicitation := 0 |} in
  let tun := adapter tap {[ subnet_peer := host ]} in
  let e := at_time (31 * Second) in
  peermacs (icmpv6 (st (sendndp tun e subnet_peer))) !! subnet_peer
  = Some {| mac := zero_bytes 6; learned := false;
            lastsolicitation := 31 * Second |}.
Proof.
  intros host tun e.
  apply (proj1 (solicitation_replaces_entry (H := builders) tun e eq_refl)
           subnet_peer host (vec_to_list subnet_peer)); by vm_compute.
Defined.

Lemma Close_without_interface_witness :
  (Close (adapter None ∅) (Some "file already closed"%string)).2 = None
  ∧ (Close (adapter tap ∅) (Some "file already closed"%string)).2
    = Some "file already closed"%string.
Proof.
  destruct (Close_without_interface (adapter None ∅)
              (Some "file already closed"%string)) as (_ & _ & Hnil & _).
  destruct (Close_without_interface (adapter tap ∅)
              (Some "file already closed"%string)) as (_ & _ & _ & Hdev).
  split; [apply Hnil; reflexivity | apply (Hdev {| IsTAP := true |}); reflexivity].
Defined.
End Checks.

(** * Further properties *)

(** ** One turn of the write loop, case by case *)

Lemma choose_destAddr_on_link (tun : TunAdapter) (b0 : byte) (hdr : Address) :
  nibble b0 = 0x40 ∨ nibble b0 = 0x60 →
  on_link tun (choose_destAddr tun b0 hdr).
Proof.
  intros Hn. unfold choose_destAddr, on_link, bytes_Equal.
  case_bool_decide as H4; [by left|].
  destruct Hn as [Hn|Hn]; [done|]. rewrite bool_decide_true by done.
  rewrite (take_ge (vec_to_list (addr tun)) 16),
    (take_ge (vec_to_list hdr) 16),
    (take_ge (vec_to_list (subnet tun)) 8)
    by (rewrite length_vec_to_list; lia).
  destruct (bool_decide_reflect (vec_to_list (addr tun) = vec_to_list hdr))
    as [Ha|Ha]; simpl.
  { left. symmetry. by apply vec_to_list_inj2. }
  destruct (bool_decide_reflect
              (vec_to_list (subnet tun) = take 8 (vec_to_list hdr)))
    as [Hs|Hs]; simpl; [by right | by left].
Qed.

Lemma extract_destAddr_family (b0 : byte) (data : list byte) (hdr : Address) :
  extract_destAddr b0 data = Extracted hdr →
  nibble b0 = 0x40 ∨ nibble b0 = 0x60.
Proof.
  unfold extract_destAddr. repeat case_bool_decide; try done; by eauto.
Qed.

Lemma extract_destAddr_routable (b0 : byte) (data : list byte) :
  nibble b0 = 0x40 ∨ nibble b0 = 0x60 →
  extract_destAddr b0 data = TooShort ∨ ∃ hdr, extract_destAddr b0 data = Extracted hdr.
Proof.
  intros Hn. unfold extract_destAddr.
  repeat case_bool_decide; try (by left); try (by right; eauto).
  destruct Hn; done.
Qed.

Section Turn.
Context `{Builders}.

Lemma sendndp_cases (tun : TunAdapter) (e : env) (k : Address) :
  (known tun (since_now e) k = true ∧ sendndp tun e k = leave Continue tun)
  ∨ (known tun (since_now e) k = false ∧ CreateNDPL2 tun k = None
     ∧ sendndp tun e k = leave Panic tun)
  ∨ (∃ req, known tun (since_now e) k = false ∧ CreateNDPL2 tun k = Some req
       ∧ sendndp tun e k
         = {| ctl := if ndp_write_ok e then Continue else Panic;
              st := if ndp_write_ok e
                    then set_peermacs tun
                           (<[k := solicited (stamp_now e)]> (peermacs (icmpv6 tun)))
                    else tun;
              wire := [Solicitation k req]; pool := [] |}).
Proof.
  unfold sendndp. destruct (known tun (since_now e) k); [by left|].
  destruct (CreateNDPL2 tun k) as [req|]; [|by right; left].
  right; right. exists req. by destruct (ndp_write_ok e).
Qed.

(** [resolve] by the state of the cache. *)
Lemma resolve_cases (tun : TunAdapter) (e : env) (d : Address) :
  (∃ n, learned_at tun d n ∧ resolve tun e d = (leave Continue tun, Some (mac n)))
  ∨ ((∀ n, ¬ learned_at tun d n)
     ∧ ∃ n, learned_at tun (addr tun) n
            ∧ resolve tun e d = (sendndp tun e d, Some (mac n)))
  ∨ ((∀ n, ¬ learned_at tun d n) ∧ (∀ n, ¬ learned_at tun (addr tun) n)
     ∧ resolve tun e d = (sendndp tun e (addr tun), None)).
Proof.
  unfold resolve, learned_at.
  destruct (peermacs (icmpv6 tun) !! d) as [[m [] t]|] eqn:Hd.
  { left. by eexists. }
  all: right.
  all: destruct (peermacs (icmpv6 tun) !! addr tun) as [[m' [] t']|] eqn:Ha.
  all: try (left; split; [by intros n [[= <-] ?] | by eexists]).
  all: right; split; [by intros n [[= <-] ?] | split; [by intros n [[= <-] ?] | done]].
Qed.

(** What [deliver] leaves behind, by the way the MAC was resolved and by
    what [sendndp] did. *)
Lemma deliver_cases (tun : TunAdapter) (e : env) (b0 : byte) (data : list byte) (d : Address) :
  let r := deliver tun e b0 data d in
  (∃ n, learned_at tun d n
        ∧ r = if write_ok e then release tun [EthernetFrame (frame_to tun b0 data (mac n))] data
              else write_failed tun [EthernetFrame (frame_to tun b0 data (mac n))])
  ∨ (∃ n, (∀ n', ¬ learned_at tun d n') ∧ learned_at tun (addr tun) n
          ∧ let ndp := sendndp tun e d in
            r = match ctl ndp with
                | Continue =>
                    let w := wire ndp ++ [EthernetFrame (frame_to tun b0 data (mac n))] in
                    if write_ok e then release (st ndp) w data
                    else write_failed (st ndp) w
                | _ => ndp
                end)
  ∨ ((∀ n', ¬ learned_at tun d n') ∧ (∀ n', ¬ learned_at tun (addr tun) n')
     ∧ let ndp := sendndp tun e (addr tun) in
       r = match ctl ndp with
           | Continue => release (st ndp) (wire ndp) data
           | _ => ndp
           end).
Proof.
  intros r. unfold r, deliver.
  destruct (resolve_cases tun e d) as [(n & Hn & ->)|[(Hd & n & Hn & ->)|(Hd & Ha & ->)]].
  - left. exists n. split; [done|]. simpl. by destruct (write_ok e).
  - right; left. exists n. split; [done|]. split; [done|]. simpl.
    destruct (sendndp_cases tun e d) as [[_ ->]|[(_ & _ & ->)|(req & _ & _ & ->)]];
      simpl; try done.
    destruct (ndp_write_ok e); simpl; done.
  - right; right. split; [done|]. split; [done|]. simpl.
    destruct (ctl (sendndp tun e (addr tun))); done.
Qed.

(** An outbound payload in TAP mode: the four ways the turn can go. *)
Lemma write_tap_cases (tun : TunAdapter) (e : env) (data : list byte) :
  (data = [] ∧ write_tap tun e data = leave Panic tun)
  ∨ (∃ b0, data !! 0%nat = Some b0
       ∧ ((extract_destAddr b0 data = TooShort ∧ write_tap tun e data = release tun [] data)
          ∨ (nibble b0 ≠ 0x40 ∧ nibble b0 ≠ 0x60
             ∧ write_tap tun e data
               = leave (Return (Some "Invalid address family"%string)) tun)
          ∨ (∃ d, (nibble b0 = 0x40 ∨ nibble b0 = 0x60) ∧ on_link tun d
                  ∧ write_tap tun e data = deliver tun e b0 data d))).
Proof.
  unfold write_tap, at_index. rewrite bool_decide_true by lia.
  change (Z.to_nat 0) with 0%nat.
  destruct data as [|b0 data']; [by left|]. right. exists b0. split; [done|].
  simpl. destruct (extract_destAddr b0 (b0 :: data')) as [| |hdr] eqn:Hx.
  - by left.
  - right; left. unfold extract_destAddr in Hx.
    repeat case_bool_decide; by try done.
  - right; right. pose proof (extract_destAddr_family _ _ _ Hx) as Hn.
    eexists. split; [done|]. split; [|done]. by apply choose_destAddr_on_link.
Qed.
End Turn.

Section TurnFacts.
Context `{Builders}.

Ltac turn_cases tun e data :=
  let b0 := fresh "b0" in let d := fresh "d" in let n := fresh "n" in
  let req := fresh "req" in
  destruct (write_tap_cases tun e data)
    as [[-> ->]|(b0 & Hb0 & [[Hx ->]|[(H4 & H6 & ->)|(d & Hfam & Hlink & ->)]])];
  [ | | |
    destruct (deliver_cases tun e b0 data d)
      as [(n & Hl & ->)|[(n & Hnd & Hl & ->)|(Hnd & Hna & ->)]];
    [ |
      destruct (sendndp_cases tun e d)
        as [[Hk ->]|[(Hk & Hc & ->)|(req & Hk & Hc & ->)]] |
      destruct (sendndp_cases tun e (addr tun))
        as [[Hk ->]|[(Hk & Hc & ->)|(req & Hk & Hc & ->)]] ] ].

(** What a turn does to the adapter: nothing, or one fresh unlearned entry
    in the cache, for an on-link key that had no learned entry. *)
Lemma write_step_adapter (tun : TunAdapter) (e : env) (ev : event) :
  let r := write_step tun e ev in
  same_adapter tun (st r)
  ∧ (peermacs (icmpv6 (st r)) = peermacs (icmpv6 tun)
     ∨ ∃ k, on_link tun k ∧ (∀ n, ¬ learned_at tun k n)
            ∧ peermacs (icmpv6 (st r))
              = <[k := solicited (stamp_now e)]> (peermacs (icmpv6 tun))).
Proof.
  assert (∀ k, on_link tun k → (∀ n, ¬ learned_at tun k n) →
            let t := (if ndp_write_ok e
                      then set_peermacs tun
                             (<[k := solicited (stamp_now e)]> (peermacs (icmpv6 tun)))
                      else tun) in
            same_adapter tun t
            ∧ (peermacs (icmpv6 t) = peermacs (icmpv6 tun)
               ∨ ∃ k, on_link tun k ∧ (∀ n, ¬ learned_at tun k n)
                      ∧ peermacs (icmpv6 t)
                        = <[k := solicited (stamp_now e)]> (peermacs (icmpv6 tun)))) as Hins.
  { intros k Hk Hun. destruct (ndp_write_ok e); simpl.
    - split; [done|]. right. by exists k.
    - split; [done|]. by left. }
  assert (same_adapter tun tun
          ∧ (peermacs (icmpv6 tun) = peermacs (icmpv6 tun)
             ∨ ∃ k, on_link tun k ∧ (∀ n, ¬ learned_at tun k n)
                    ∧ peermacs (icmpv6 tun)
                      = <[k := solicited (stamp_now e)]> (peermacs (icmpv6 tun)))) as Hsame.
  { split; [done|by left]. }
  destruct ev as [reject|data]; simpl.
  - unfold write_reject, leave. repeat case_match; simpl; exact Hsame.
  - unfold write_recv. destruct (iface tun) as [ifc|]; [|exact Hsame].
    destruct (IsTAP ifc); [|by destruct (write_ok e)].
    turn_cases tun e data; simpl; try exact Hsame.
    + by destruct (write_ok e).
    + by destruct (write_ok e).
    + destruct (ndp_write_ok e) eqn:Hok; simpl.
      * specialize (Hins d Hlink Hnd). by destruct (write_ok e).
      * exact Hsame.
    + destruct (ndp_write_ok e) eqn:Hok; simpl.
      * assert (on_link tun (addr tun)) as Hown by (by left).
        exact (Hins (addr tun) Hown Hna).
      * exact Hsame.
Qed.
End TurnFacts.

Lemma grown_from_refl (tun : TunAdapter) : grown_from tun tun.
Proof. unfold grown_from, same_adapter. naive_solver. Qed.

Lemma on_link_same (tun tun' : TunAdapter) (k : Address) :
  same_adapter tun tun' → on_link tun' k ↔ on_link tun k.
Proof. intros (Ha & Hs & _). unfold on_link. by rewrite Ha, Hs. Qed.

Lemma grown_from_trans (t1 t2 t3 : TunAdapter) :
  grown_from t1 t2 → grown_from t2 t3 → grown_from t1 t3.
Proof.
  intros (Hs12 & Hl12 & Hk12 & Hn12) (Hs23 & Hl23 & Hk23 & Hn23).
  split; [|split; [|split]].
  - unfold same_adapter in *. destruct Hs12 as (?&?&?&?&?&?), Hs23 as (?&?&?&?&?&?).
    repeat split; congruence.
  - intros k n. by rewrite Hl23, Hl12.
  - intros k Hk. by apply Hk23, Hk12.
  - intros k Hk. destruct (Hn23 k Hk) as [Hold|Hlink].
    + by apply Hn12.
    + right. by apply (on_link_same t1 t2).
Qed.

Section LoopFacts.
Context `{Builders}.

Ltac turn_cases tun e data :=
  let b0 := fresh "b0" in let d := fresh "d" in let n := fresh "n" in
  let req := fresh "req" in
  destruct (write_tap_cases tun e data)
    as [[-> ->]|(b0 & Hb0 & [[Hx ->]|[(H4 & H6 & ->)|(d & Hfam & Hlink & ->)]])];
  [ | | |
    destruct (deliver_cases tun e b0 data d)
      as [(n & Hl & ->)|[(n & Hnd & Hl & ->)|(Hnd & Hna & ->)]];
    [ |
      destruct (sendndp_cases tun e d)
        as [[Hk ->]|[(Hk & Hc & ->)|(req & Hk & Hc & ->)]] |
      destruct (sendndp_cases tun e (addr tun))
        as [[Hk ->]|[(Hk & Hc & ->)|(req & Hk & Hc & ->)]] ] ].

Lemma write_step_grows (tun : TunAdapter) (e : env) (ev : event) :
  grown_from tun (st (write_step tun e ev)).
Proof.
  destruct (write_step_adapter tun e ev) as [Hsame [Heq|(k & Hlink & Hun & Heq)]].
  - split; [done|]. unfold learned_at. rewrite Heq. naive_solver.
  - split; [done|]. unfold learned_at in *. rewrite Heq.
    split; [|split].
    + intros k' n. destruct (decide (k = k')) as [->|Hne].
      * rewrite lookup_insert_eq. split.
        -- intros [[= <-] Hl]. done.
        -- intros Hl. by destruct (Hun n).
      * by rewrite lookup_insert_ne.
    + intros k' Hk'. destruct (decide (k = k')) as [->|Hne].
      * by rewrite lookup_insert_eq.
      * by rewrite lookup_insert_ne.
    + intros k' Hk'. destruct (decide (k = k')) as [->|Hne]; [by right|].
      left. by rewrite lookup_insert_ne in Hk'.
Qed.

Lemma write_cons (tun : TunAdapter) (e : env) (ev : event) (rest : list (env * event)) :
  write tun ((e, ev) :: rest)
  = let r := write_step tun e ev in
    match ctl r with
    | Continue =>
        let r' := write (st r) rest in
        {| ctl := ctl r'; st := st r';
           wire := wire r ++ wire r'; pool := pool r ++ pool r' |}
    | _ => r
    end.
Proof. reflexivity. Qed.

Lemma write_grows (inputs : list (env * event)) (tun : TunAdapter) :
  grown_from tun (st (write tun inputs)).
Proof.
  revert tun. induction inputs as [|[e ev] rest IH]; intros tun.
  - apply grown_from_refl.
  - rewrite write_cons. cbv zeta.
    pose proof (write_step_grows tun e ev) as Hstep.
    destruct (ctl (write_step tun e ev)); try done.
    cbn [st]. eapply grown_from_trans; [exact Hstep | apply IH].
Qed.

(** Every device write of the loop is made by one of its turns, on an
    adapter grown from the first one. *)
Lemma write_wire_turn (inputs : list (env * event)) (tun : TunAdapter) (x : written) :
  x ∈ wire (write tun inputs) →
  ∃ tun' e ev, (e, ev) ∈ inputs ∧ grown_from tun tun'
               ∧ x ∈ wire (write_step tun' e ev).
Proof.
  revert tun. induction inputs as [|[e ev] rest IH]; intros tun.
  - simpl. by intros ?%elem_of_nil.
  - rewrite write_cons. cbv zeta.
    pose proof (write_step_grows tun e ev) as Hstep.
    assert (x ∈ wire (write_step tun e ev) →
            ∃ tun' e' ev', (e', ev') ∈ (e, ev) :: rest ∧ grown_from tun tun'
                           ∧ x ∈ wire (write_step tun' e' ev')) as Hhere.
    { intros Hx. exists tun, e, ev. split; [by left|]. split; [apply grown_from_refl|done]. }
    destruct (ctl (write_step tun e ev)); try done.
    cbn [wire]. intros [Hx|Hx]%elem_of_app; [by apply Hhere|].
    destruct (IH _ Hx) as (tun' & e' & ev' & Hin & Hg & Hx').
    exists tun', e', ev'. split; [by right|]. split; [|done].
    eapply grown_from_trans; [exact Hstep | exact Hg].
Qed.

(** The frames and solicitations of one turn. *)
Lemma write_step_wire (tun : TunAdapter) (e : env) (ev : event) (x : written) :
  x ∈ wire (write_step tun e ev) → turn_wrote tun e ev x.
Proof.
  assert (on_link tun (addr tun)) as Hown by (by left).
  destruct ev as [reject|data]; simpl.
  - unfold write_reject, leave. repeat case_match; simpl;
      try (by intros ?%elem_of_nil).
    intros ->%list_elem_of_singleton. by eexists.
  - unfold write_recv. destruct (iface tun) as [ifc|] eqn:Hifc;
      [|by intros ?%elem_of_nil].
    destruct (IsTAP ifc) eqn:Htap.
    + turn_cases tun e data; simpl; try (by intros ?%elem_of_nil).
      * assert (x ∈ [EthernetFrame (frame_to tun b0 data (mac n))] →
                turn_wrote tun e (FromRecv data) x) as Hgoal;
          [|by destruct (write_ok e)].
        intros ->%list_elem_of_singleton. exists data, b0, d, n. done.
      * assert (x ∈ [EthernetFrame (frame_to tun b0 data (mac n))] →
                turn_wrote tun e (FromRecv data) x) as Hgoal;
          [|by destruct (write_ok e)].
        intros ->%list_elem_of_singleton. exists data, b0, (addr tun), n. done.
      * assert (x ∈ [Solicitation d req; EthernetFrame (frame_to tun b0 data (mac n))]
                → turn_wrote tun e (FromRecv data) x) as Hgoal.
        { intros [->|[->|?%elem_of_nil]%elem_of_cons]%elem_of_cons; [done| |done].
          exists data, b0, (addr tun), n. done. }
        destruct (ndp_write_ok e); simpl.
        -- by destruct (write_ok e).
        -- intros ->%list_elem_of_singleton. done.
      * destruct (ndp_write_ok e); simpl;
          intros ->%list_elem_of_singleton; done.
    + assert (x ∈ [RawPacket data] → turn_wrote tun e (FromRecv data) x) as Hgoal;
        [|by destruct (write_ok e)].
      intros ->%list_elem_of_singleton. split; [done|]. by exists ifc.
Qed.
End LoopFacts.

(** ** The write loop as a whole *)

Section WriteLoopFacts.
Context `{Builders}.

(** X1: whatever events it handles, the write loop changes nothing of the
    adapter but the neighbour cache; in the cache it removes no key, adds
    keys only for the adapter's own address or addresses of its subnet,
    and leaves the learned entries exactly as they were. *)
Theorem write_changes_only_unlearned (tun : TunAdapter) (inputs : list (env * event)) :
  let tun' := st (write tun inputs) in
  same_adapter tun tun'
  ∧ (∀ k n, learned n = true →
       peermacs (icmpv6 tun') !! k = Some n ↔ peermacs (icmpv6 tun) !! k = Some n)
  ∧ (∀ k, is_Some (peermacs (icmpv6 tun) !! k) → is_Some (peermacs (icmpv6 tun') !! k))
  ∧ (∀ k, is_Some (peermacs (icmpv6 tun') !! k) →
          is_Some (peermacs (icmpv6 tun) !! k) ∨ on_link tun k).
Proof.
  intros tun'. destruct (write_grows inputs tun) as (Hs & Hl & Hk & Hn).
  split; [done|]. split; [|done].
  intros k n Hn'. specialize (Hl k n). unfold learned_at in Hl. tauto.
Qed.

(** X2: every Ethernet frame the write loop writes carries, unchanged, a
    payload it received, whose first byte has version nibble 4 or 6; its
    ethertype is the one of that nibble, its source is the adapter's MAC,
    and its destination is the MAC of an entry that was learned in the
    cache the loop started with, for the own address or an address of the
    subnet. *)
Theorem write_frames_to_learned (tun : TunAdapter) (inputs : list (env * event))
    (f : Frame) :
  EthernetFrame f ∈ wire (write tun inputs) →
  ∃ e data b0 k n,
    (e, FromRecv data) ∈ inputs
    ∧ data !! 0%nat = Some b0
    ∧ on_link tun k ∧ peermacs (icmpv6 tun) !! k = Some n ∧ learned n = true
    ∧ f = {| frame_dst := mac n; frame_src := mymac (icmpv6 tun);
             frame_proto := proto_of b0; frame_payload := data |}
    ∧ (nibble b0 = 0x40 ∧ frame_proto f = EtherIPv4
       ∨ nibble b0 = 0x60 ∧ frame_proto f = EtherIPv6).
Proof.
  intros Hin.
  destruct (write_wire_turn inputs tun _ Hin) as (tun' & e & ev & Hev & Hg & Hx).
  apply write_step_wire in Hx as (data & b0 & k & n & -> & Hb0 & Hfam & Hlink & Hl & ->).
  destruct Hg as (Hs & Hlearn & _).
  apply Hlearn in Hl as [Hk Hln]. apply (on_link_same tun tun') in Hlink; [|done].
  exists e, data, b0, k, n. repeat split; try done.
  - unfold frame_to. destruct Hs as (_ & _ & _ & _ & _ & ->). done.
  - unfold frame_to, proto_of. simpl. destruct Hfam as [H4|H6].
    + left. split; [done|]. rewrite bool_decide_false by (rewrite H4; lia).
      by rewrite bool_decide_true.
    + right. split; [done|]. by rewrite bool_decide_true.
Qed.

(** X3: every solicitation the write loop sends asks for the adapter's own
    address or for an address of its subnet, and never for an address
    whose MAC is learned in the cache the loop started with. *)
Theorem write_solicits_on_link (tun : TunAdapter) (inputs : list (env * event))
    (k : Address) (req : list byte) :
  Solicitation k req ∈ wire (write tun inputs) →
  on_link tun k
  ∧ ∀ n, peermacs (icmpv6 tun) !! k = Some n → learned n = false.
Proof.
  intros Hin.
  destruct (write_wire_turn inputs tun _ Hin) as (tun' & e & ev & Hev & Hg & Hx).
  apply write_step_wire in Hx as (Hlink & Hun & _).
  destruct Hg as (Hs & Hlearn & _). split.
  - by apply (on_link_same tun tun').
  - intros n Hn. destruct (learned n) eqn:Hl; [|done].
    destruct (Hun n). apply Hlearn. by split.
Qed.
End WriteLoopFacts.

Section WriteLoopMore.
Context `{Builders}.

Lemma write_step_keeps_known (tun : TunAdapter) (e : env) (ev : event)
    (k : Address) (n0 : neighbor) :
  peermacs (icmpv6 tun) !! k = Some n0 →
  Since (since_now e) (lastsolicitation n0) < 30 * Second →
  solicitations_for k (wire (write_step tun e ev)) = []
  ∧ peermacs (icmpv6 (st (write_step tun e ev))) !! k = Some n0.
Proof.
  intros Hk Hlt.
  assert (known tun (since_now e) k = true) as Hknown.
  { unfold known, Seconds_lt_30. rewrite Hk. by rewrite bool_decide_true. }
  split; [by apply write_step_known_silent|].
  destruct (write_step_shape tun e ev)
    as [[_ ->]|(k' & req & tail & _ & _ & Hk' & _ & _ & Hst)]; [done|].
  destruct (ndp_write_ok e).
  - rewrite Hst. simpl. rewrite lookup_insert_ne; [done|]. congruence.
  - by destruct Hst as [_ ->].
Qed.

(** While the entry for [k] is less than 30 seconds old at every turn, the
    loop sends nothing for [k] and keeps the entry. *)
Lemma write_silent_while_known (inputs : list (env * event)) (tun : TunAdapter)
    (k : Address) (n0 : neighbor) :
  peermacs (icmpv6 tun) !! k = Some n0 →
  Forall (λ x, Since (since_now x.1) (lastsolicitation n0) < 30 * Second) inputs →
  solicitations_for k (wire (write tun inputs)) = [].
Proof.
  revert tun. induction inputs as [|[e ev] rest IH]; intros tun Hk Hall; [done|].
  apply Forall_cons in Hall as [Hlt Hrest]. simpl in Hlt.
  destruct (write_step_keeps_known tun e ev k n0 Hk Hlt) as [Hnone Hkeep].
  rewrite write_cons. cbv zeta.
  destruct (ctl (write_step tun e ev)); try done.
  cbn [wire]. rewrite solicitations_for_app, Hnone. simpl. by apply IH.
Qed.

(** X4: over any run of the write loop whose turns all read the clock less
    than 30 seconds after the stamps of the turns before them, at most one
    solicitation is sent for any one address. *)
Theorem one_solicitation_per_window (tun : TunAdapter) (inputs : list (env * event))
    (k : Address) :
  within_window inputs →
  (length (solicitations_for k (wire (write tun inputs))) ≤ 1)%nat.
Proof.
  revert tun. induction inputs as [|[e ev] rest IH]; intros tun Hwin.
  - simpl. lia.
  - destruct Hwin as [Hnear Hwin]. rewrite write_cons. cbv zeta.
    pose proof (write_step_count tun e ev k) as Hone.
    destruct (ctl (write_step tun e ev)) eqn:Hctl; try done.
    cbn [wire]. rewrite solicitations_for_app, length_app.
    destruct (solicitations_for k (wire (write_step tun e ev))) as [|x l] eqn:Hs.
    { cbn [length]. specialize (IH (st (write_step tun e ev)) Hwin). lia. }
    destruct (solicitations_for_elem k (wire (write_step tun e ev))) as [req Hin];
      [by rewrite Hs|].
    apply write_step_solicits in Hin as (_ & _ & _ & Hst).
    destruct (ndp_write_ok e); [|destruct Hst; congruence].
    rewrite (write_silent_while_known rest _ k (solicited (stamp_now e))).
    + cbn [length] in *. lia.
    + rewrite Hst. simpl. by rewrite lookup_insert_eq.
    + done.
Qed.

(** X5: in TUN mode, while the device takes the writes, the loop writes
    each outbound payload as it received it and in the order received,
    gives each buffer back to the pool, and leaves the adapter as it
    was. *)
Theorem tun_mode_passthrough (tun : TunAdapter) (ifc : Interface)
    (sends : list (env * list byte)) :
  iface tun = Some ifc → IsTAP ifc = false →
  Forall (λ x, write_ok x.1 = true) sends →
  write tun (payload_events sends)
  = {| ctl := Continue; st := tun;
       wire := RawPacket <$> sends.*2; pool := sends.*2 |}.
Proof.
  intros Hifc Htun. induction sends as [|[e data] rest IH]; intros Hall; [done|].
  apply Forall_cons in Hall as [Hok Hrest]. simpl in Hok.
  unfold payload_events in *. rewrite fmap_cons. cbn [fst snd].
  rewrite write_cons. cbv zeta.
  assert (write_step tun e (FromRecv data) = release tun [RawPacket data] data) as ->.
  { unfold write_step, write_recv. by rewrite Hifc, Htun, Hok. }
  cbn [ctl st wire pool release]. rewrite (IH Hrest). done.
Qed.

(** A turn on a routable payload in TAP mode, with a device that takes
    every write and builders that succeed, goes on and releases the
    buffer. *)
Lemma write_step_healthy (tun : TunAdapter) (e : env) (ifc : Interface) (data : list byte) :
  iface tun = Some ifc → IsTAP ifc = true →
  routable data →
  (∀ k, is_Some (CreateNDPL2 tun k)) →
  ndp_write_ok e = true → write_ok e = true →
  ctl (write_step tun e (FromRecv data)) = Continue
  ∧ pool (write_step tun e (FromRecv data)) = [data].
Proof.
  intros Hifc Htap (b & Hb & Hfam) Hbuild Hndp Hw.
  unfold write_step, write_recv. rewrite Hifc, Htap.
  destruct (write_tap_cases tun e data)
    as [[-> _]|(b0 & Hb0 & [[Hx ->]|[(H4 & H6 & _)|(d & _ & _ & ->)]])].
  - done.
  - done.
  - rewrite Hb0 in Hb. injection Hb as <-. by destruct Hfam.
  - destruct (deliver_cases tun e b0 data d)
      as [(n & Hl & ->)|[(n & Hnd & Hl & ->)|(Hnd & Hna & ->)]].
    + by rewrite Hw.
    + destruct (sendndp_cases tun e d)
        as [[Hk ->]|[(Hk & Hc & _)|(req & Hk & Hc & ->)]]; simpl.
      * by rewrite Hw.
      * destruct (Hbuild d) as [? Hsome]. congruence.
      * rewrite Hndp. by rewrite Hw.
    + destruct (sendndp_cases tun e (addr tun))
        as [[Hk ->]|[(Hk & Hc & _)|(req & Hk & Hc & ->)]]; simpl.
      * done.
      * destruct (Hbuild (addr tun)) as [? Hsome]. congruence.
      * by rewrite Hndp.
Qed.

(** X6: in TAP mode, with builders that never fail and a device that takes
    every write, a run of outbound payloads that each start with a byte of
    version nibble 4 or 6 never ends the loop, and every buffer is given
    back to the pool once, in the order received: sent, or dropped for
    being too short or for want of a MAC. *)
Theorem tap_mode_releases_all (tun : TunAdapter) (ifc : Interface)
    (sends : list (env * list byte)) :
  iface tun = Some ifc → IsTAP ifc = true →
  (∀ t k, is_Some (CreateNDPL2 t k)) →
  Forall (λ x, ndp_write_ok x.1 = true ∧ write_ok x.1 = true ∧ routable x.2) sends →
  ctl (write tun (payload_events sends)) = Continue
  ∧ pool (write tun (payload_events sends)) = sends.*2.
Proof.
  intros Hifc Htap Hbuild. revert tun Hifc.
  induction sends as [|[e data] rest IH]; intros tun Hifc Hall; [done|].
  apply Forall_cons in Hall as [(Hndp & Hw & Hr) Hrest]. simpl in Hndp, Hw, Hr.
  unfold payload_events in *. rewrite fmap_cons. cbn [fst snd].
  rewrite write_cons. cbv zeta.
  destruct (write_step_healthy tun e ifc data Hifc Htap Hr (Hbuild tun) Hndp Hw)
    as [Hc Hp].
  rewrite Hc. cbn [ctl pool]. rewrite Hp.
  destruct (write_step_grows tun e (FromRecv data)) as ((_ & _ & Hi & _) & _).
  destruct (IH (st (write_step tun e (FromRecv data)))) as [Hc' Hp'];
    [by rewrite Hi | done |].
  by rewrite Hc', Hp'.
Qed.
End WriteLoopMore.

Section WriteEdges.
Context `{Builders}.

(** The loop on a run of events followed by another run. *)
Lemma write_app (l1 l2 : list (env * event)) (tun : TunAdapter) :
  write tun (l1 ++ l2)
  = let r := write tun l1 in
    match ctl r with
    | Continue =>
        let r' := write (st r) l2 in
        {| ctl := ctl r'; st := st r';
           wire := wire r ++ wire r'; pool := pool r ++ pool r' |}
    | _ => r
    end.
Proof.
  revert tun. induction l1 as [|[e ev] rest IH]; intros tun.
  - simpl. by destruct (write tun l2).
  - rewrite <- app_comm_cons, !write_cons. cbv zeta.
    destruct (ctl (write_step tun e ev)) eqn:Hc; rewrite ?Hc; try done.
    rewrite IH. cbv zeta. cbn [ctl st wire pool].
    destruct (ctl (write (st (write_step tun e ev)) rest)) eqn:Hc';
      cbn [ctl st wire pool]; by rewrite ?Hc', ?app_assoc.
Qed.

(** X7: in TAP mode an empty outbound payload makes the write loop panic
    on [data[0]], wherever in the run it comes: what was written and
    released before stays, and nothing follows. *)
Theorem empty_payload_panics (tun : TunAdapter) (ifc : Interface)
    (before after : list (env * event)) (e : env) :
  iface tun = Some ifc → IsTAP ifc = true →
  ctl (write tun before) = Continue →
  let r := write tun (before ++ (e, FromRecv []) :: after) in
  ctl r = Panic
  ∧ wire r = wire (write tun before)
  ∧ pool r = pool (write tun before).
Proof.
  intros Hifc Htap Hc r. unfold r. rewrite write_app. cbv zeta. rewrite Hc.
  destruct (write_grows before tun) as ((_ & _ & Hi & _) & _).
  rewrite write_cons. cbv zeta.
  assert (write_step (st (write tun before)) e (FromRecv [])
          = leave Panic (st (write tun before))) as ->.
  { unfold write_step, write_recv. by rewrite Hi, Hifc, Htap. }
  cbn [ctl wire pool leave]. by rewrite !app_nil_r.
Qed.

(** X8: for a rejected packet of at least 40 bytes, the Packet Too Big
    branch hands to [CreateICMPv6], as destination, bytes 8 to 23 of the
    rejected packet (its IPv6 source) and, as source, bytes 24 to 39 (its
    IPv6 destination), with the MTU of the notification and the whole
    packet as data; it writes what the builder returns, and when the
    builder fails it writes nothing and the loop goes on. *)
Theorem packet_too_big_addresses (tun : TunAdapter) (ifc : Interface)
    (packet : GoSlice) (mtu : Z) :
  iface tun = Some ifc → 40 ≤ len packet →
  ∃ dst src,
    visible dst = take 16 (drop 8 (visible packet))
    ∧ visible src = take 16 (drop 24 (visible packet))
    ∧ write_reject tun {| Reason := PacketTooBig; Packet := packet;
                          Detail := DetailInt mtu |}
      = {| ctl := Continue; st := tun;
           wire := match CreateICMPv6 dst src mtu packet with
                   | Some icmpv6Buf => [TooBig icmpv6Buf]
                   | None => []
                   end;
           pool := [] |}.
Proof.
  intros Hifc Hlen. unfold len in Hlen.
  assert (∀ lo : nat, (lo + 16 ≤ 40)%nat →
            take 16 (drop lo (visible packet ++ spare packet))
            = take 16 (drop lo (visible packet))) as Hcut.
  { intros lo Hlo. rewrite drop_app_le by lia. rewrite take_app_le; [done|].
    rewrite length_drop. lia. }
  exists {| visible := take 16 (drop 8 (visible packet ++ spare packet));
            spare := drop 24 (visible packet ++ spare packet) |},
         {| visible := take 16 (drop 24 (visible packet ++ spare packet));
            spare := drop 40 (visible packet ++ spare packet) |}.
  split; [apply (Hcut 8%nat); lia|]. split; [apply (Hcut 24%nat); lia|].
  unfold write_reject, reslice, leave. cbn [Reason Detail Packet].
  rewrite !bool_decide_true by (unfold cap; lia).
  change (Z.to_nat (24 - 8)) with 16%nat. change (Z.to_nat (40 - 24)) with 16%nat.
  change (Z.to_nat 8) with 8%nat. change (Z.to_nat 24) with 24%nat.
  change (Z.to_nat 40) with 40%nat.
  rewrite Hifc. by destruct (CreateICMPv6 _ _ mtu packet).
Qed.

Lemma write_reject_harmless (tun : TunAdapter) (reject : RejectedPacket) :
  let r := write_reject tun reject in
  st r = tun ∧ pool r = []
  ∧ (ctl r = Continue ∨ ctl r = Panic ∧ wire r = [])
  ∧ (wire r = [] ∨ ∃ icmpv6Buf, wire r = [TooBig icmpv6Buf]).
Proof.
  unfold write_reject, leave. repeat case_match; simpl; naive_solver.
Qed.

(** X9: a run of rejected-packet notifications never changes the adapter,
    gives no buffer to the pool (the rejected packets are not released),
    and never ends the loop with a return; it writes nothing but Packet
    Too Big messages, at most one per notification. *)
Theorem rejects_leave_adapter (tun : TunAdapter) (rejects : list (env * RejectedPacket)) :
  let r := write tun (reject_events rejects) in
  st r = tun ∧ pool r = []
  ∧ (ctl r = Continue ∨ ctl r = Panic)
  ∧ Forall is_TooBig (wire r)
  ∧ (length (wire r) ≤ length rejects)%nat.
Proof.
  induction rejects as [|[e reject] rest IH]; simpl.
  - repeat split; [by left | done | lia].
  - destruct (write_reject_harmless tun reject) as (Hst & Hpool & Hctl & Hwire).
    fold (reject_events rest).
    destruct Hctl as [Hc|[Hc Hw]]; rewrite Hc.
    + simpl. rewrite Hst, Hpool.
      destruct IH as (IHst & IHpool & IHctl & IHwire & IHlen).
      repeat split; try done.
      * apply Forall_app. split; [|done].
        destruct Hwire as [->|[b ->]]; [done|]. by apply Forall_singleton.
      * rewrite length_app. destruct Hwire as [->|[b ->]]; simpl; lia.
    + rewrite Hst, Hpool, Hw. repeat split; [by right | done | simpl; lia].
Qed.

(** X10: in TAP mode, for a payload whose chosen destination has a learned
    MAC, the turn writes exactly one frame, to that MAC, from the
    adapter's MAC, with the ethertype of the payload's version and the
    payload unchanged; it sends no solicitation and leaves the cache as it
    was. When the device takes the frame the buffer is released and the
    loop goes on; when it does not, the loop panics, or returns nil if the
    adapter was closed. *)
Theorem learned_destination_framed (tun : TunAdapter) (e : env) (ifc : Interface)
    (data : list byte) (b0 : byte) (hdr : Address) (n : neighbor) :
  iface tun = Some ifc → IsTAP ifc = true →
  at_index data 0 = Some b0 →
  extract_destAddr b0 data = Extracted hdr →
  peermacs (icmpv6 tun) !! choose_destAddr tun b0 hdr = Some n →
  learned n = true →
  let frame := {| frame_dst := mac n; frame_src := mymac (icmpv6 tun);
                  frame_proto := if bool_decide (nibble b0 = 0x60)
                                 then EtherIPv6 else EtherIPv4;
                  frame_payload := data |} in
  write_step tun e (FromRecv data)
  = {| ctl := if write_ok e then Continue
              else if isOpen tun then Panic else Return None;
       st := tun;
       wire := [EthernetFrame frame];
       pool := if write_ok e then [data] else [] |}.
Proof.
  intros Hifc Htap Hb0 Hx Hn Hl frame.
  unfold write_step, write_recv, write_tap, deliver.
  rewrite Hifc, Htap, Hb0, Hx.
  rewrite (resolve_learned tun e _ n Hn Hl). cbn [ctl leave wire st app].
  assert (proto_of b0 = if bool_decide (nibble b0 = 0x60) then EtherIPv6 else EtherIPv4)
    as ->.
  { unfold proto_of. case_bool_decide; [done|].
    destruct (extract_destAddr_family _ _ _ Hx) as [H4|H6]; [|done].
    by rewrite bool_decide_true. }
  by destruct (write_ok e).
Qed.
End WriteEdges.

(** ** The read loop, further *)

Lemma go_copy_fresh (n : nat) (buf : list byte) :
  (n ≤ length buf)%nat → go_copy (replicate n x00) buf = take n buf.
Proof.
  intros Hn. unfold go_copy. rewrite length_replicate.
  rewrite drop_ge by (rewrite length_replicate; lia). by rewrite app_nil_r.
Qed.

Lemma declared_length_nonneg (ip : list byte) (d : Z) :
  declared_length ip = Some d → 0 ≤ d.
Proof.
  unfold declared_length. destruct (ip !! 0%nat) as [b0|]; [|done].
  cbn [mbind option_bind]. repeat case_bool_decide; try done.
  - destruct (ip !! 4%nat) as [b4|]; [|done]. destruct (ip !! 5%nat) as [b5|]; [|done].
    cbn [mbind option_bind]. intros [= <-].
    pose proof (byte_Z_range b4). pose proof (byte_Z_range b5).
    unfold tun_IPv6_HEADER_LENGTH. lia.
  - destruct (ip !! 2%nat) as [b2|]; [|done]. destruct (ip !! 3%nat) as [b3|]; [|done].
    cbn [mbind option_bind]. intros [= <-].
    pose proof (byte_Z_range b2). pose proof (byte_Z_range b3). lia.
Qed.

Lemma forward_in_range (tap : bool) (buf : list byte) (o n : Z) (b6 : byte) :
  0 ≤ o ≤ n → n ≤ Z.of_nat (length buf) →
  at_index buf (o + 6) = Some b6 →
  forward tap buf o n
  = Some (Forwarded (take (Z.to_nat (n - o)) (drop (Z.to_nat o) buf))
            (if tap && bool_decide (byte_Z b6 = 58)
             then Some (take (Z.to_nat n) buf) else None)).
Proof.
  intros Ho Hn Hb6. unfold forward, slice_range. rewrite Hb6.
  cbn [mbind option_bind].
  rewrite (bool_decide_true (0 ≤ o ∧ o ≤ n ∧ n ≤ Z.of_nat (length buf))) by lia.
  cbn [mbind option_bind]. unfold GetBytes. rewrite app_nil_l.
  rewrite go_copy_fresh by lia.
  by destruct tap, (bool_decide (byte_Z b6 = 58)).
Qed.

(** X11: a buffer whose header, behind the Ethernet offset, declares
    exactly the number of bytes read is forwarded, and the payload is the
    bytes from the offset to the byte count, unchanged; in TAP mode the
    whole frame is handed to the parser when the byte at offset 6 of the
    packet is 58. *)
Theorem read_forwards_well_formed (tun : TunAdapter) (ifc : Interface)
    (buf : list byte) (n : Z) (b6 : byte) :
  iface tun = Some ifc →
  let o := ether_offset (IsTAP ifc) in
  declared_length (drop (Z.to_nat o) buf) = Some (n - o) →
  n ≤ Z.of_nat (length buf) →
  at_index buf (o + 6) = Some b6 →
  read_step tun (ReadN n) buf
  = Forwarded (take (Z.to_nat (n - o)) (drop (Z.to_nat o) buf))
      (if IsTAP ifc && bool_decide (byte_Z b6 = 58)
       then Some (take (Z.to_nat n) buf) else None).
Proof.
  intros Hifc o Hd Hn Hb6. unfold read_step. rewrite Hifc.
  pose proof (ether_offset_nonneg (IsTAP ifc)) as Ho. fold o in Ho.
  pose proof (declared_length_nonneg _ _ Hd) as Hpos.
  assert (forward (IsTAP ifc) buf o n
          = Some (Forwarded (take (Z.to_nat (n - o)) (drop (Z.to_nat o) buf))
                    (if IsTAP ifc && bool_decide (byte_Z b6 = 58)
                     then Some (take (Z.to_nat n) buf) else None))) as Hf.
  { apply forward_in_range; [lia|done|done]. }
  unfold read_packet. fold o.
  apply (switch_passes_iff buf o n Ho) in Hd as [->|[-> ->]];
    cbn [mbind option_bind]; by rewrite Hf.
Qed.

Lemma read_packet_total (tap : bool) (buf : list byte) (n : Z) :
  ether_offset tap + 7 ≤ Z.of_nat (length buf) →
  n ≤ Z.of_nat (length buf) →
  is_Some (read_packet tap buf n).
Proof.
  intros Hlen Hn. pose proof (ether_offset_nonneg tap) as Ho.
  assert (∀ k, 0 ≤ k < 7 → is_Some (at_index buf (ether_offset tap + k))) as Hidx.
  { intros k Hk. apply at_index_lt_is_Some. lia. }
  destruct (Hidx 0) as [b0 Hb0]; [lia|]. rewrite Z.add_0_r in Hb0.
  destruct (Hidx 2) as [b2 Hb2]; [lia|]. destruct (Hidx 3) as [b3 Hb3]; [lia|].
  destruct (Hidx 4) as [b4 Hb4]; [lia|]. destruct (Hidx 5) as [b5 Hb5]; [lia|].
  destruct (Hidx 6) as [b6 Hb6]; [lia|].
  pose proof (byte_Z_range b2). pose proof (byte_Z_range b3).
  pose proof (byte_Z_range b4). pose proof (byte_Z_range b5).
  unfold read_packet, is_ipv6_of_length, is_ipv4_of_length.
  rewrite Hb0, Hb2, Hb3, Hb4, Hb5. cbn [mbind option_bind].
  unfold tun_IPv6_HEADER_LENGTH.
  repeat (case_bool_decide; cbn [mbind option_bind]); try done;
    rewrite (forward_in_range tap buf _ n b6) by (done || lia); done.
Qed.

(** X12: with an MTU of at least 7, on the buffer that [read] allocates,
    and a device that reports no more bytes than the buffer holds, no turn
    of the read loop panics: every index and slice it takes is in
    range. *)
Theorem read_never_panics (tun : TunAdapter) (buf0 buf : list byte) (res : read_result) :
  read_buffer tun = Some buf0 → length buf = length buf0 →
  7 ≤ mtu tun →
  (∀ n, res = ReadN n → n ≤ Z.of_nat (length buf)) →
  read_step tun res buf ≠ ReadPanic.
Proof.
  unfold read_buffer, read_step. destruct (iface tun) as [ifc|]; [|done].
  cbn [mbind option_bind]. case_bool_decide as Hsize; [|done].
  intros [= <-] Hlen Hmtu Hres. rewrite length_replicate in Hlen.
  destruct res as [n|err]; [|by destruct (isOpen tun)].
  destruct (read_packet_total (IsTAP ifc) buf n) as [r Hr]; [lia|by apply Hres|].
  rewrite Hr. simpl. intros ->.
  unfold read_packet in Hr.
  destruct (is_ipv6_of_length buf _ n) as [[]|]; cbn [mbind option_bind] in Hr;
    [| destruct (is_ipv4_of_length buf _ n) as [[]|]; cbn [mbind option_bind] in Hr |];
    try done.
  all: unfold forward in Hr; destruct (at_index buf _); cbn [mbind option_bind] in Hr;
    [|done]; destruct (slice_range buf _ n); cbn [mbind option_bind] in Hr; done.
Qed.

(** X13: whenever the read loop hands a buffer to the parser, the adapter
    is in TAP mode, the buffer is the frame as read, Ethernet header
    included (the first [n] bytes of the read buffer), and the packet
    forwarded to the router is that frame without its first 14 bytes. *)
Theorem parsed_frame_holds_packet (tun : TunAdapter) (n : Z) (buf packet b : list byte) :
  read_step tun (ReadN n) buf = Forwarded packet (Some b) →
  (∃ ifc, iface tun = Some ifc ∧ IsTAP ifc = true)
  ∧ b = take (Z.to_nat n) buf
  ∧ length b = Z.to_nat n
  ∧ packet = drop 14 b.
Proof.
  unfold read_step. destruct (iface tun) as [ifc|]; [|done].
  destruct (read_packet (IsTAP ifc) buf n) as [r|] eqn:Hr; simpl; [|done].
  intros ->. apply read_packet_Forwarded in Hr as [Hd Hf].
  pose proof (declared_length_nonneg _ _ Hd) as Hpos.
  unfold forward in Hf.
  destruct (at_index buf (ether_offset (IsTAP ifc) + 6)) as [b6|];
    cbn [mbind option_bind] in Hf; [|done].
  destruct (slice_range buf _ n) as [payload|] eqn:Hs; cbn [mbind option_bind] in Hf;
    [|done].
  injection Hf as <- Hparsed.
  destruct (bool_decide (byte_Z b6 = 58)); [|done].
  destruct (IsTAP ifc) eqn:Htap; [|done].
  unfold slice_range in Hs. case_bool_decide as Hrange; [|done].
  injection Hs as <-. injection Hparsed as <-.
  unfold ether_offset, tun_ETHER_HEADER_LENGTH in *.
  rewrite go_copy_fresh by lia.
  split; [by eexists|]. split; [done|]. split; [rewrite length_take; lia|].
  change (Z.to_nat 14) with 14%nat.
  rewrite take_drop_commute. f_equal. f_equal. lia.
Qed.

Lemma read_ends_last (tun : TunAdapter) (inputs : list (read_result * list byte))
    (i : nat) (r : read_outcome) :
  read tun inputs !! i = Some r → ends_read r → length (read tun inputs) = S i.
Proof.
  revert i. induction inputs as [|[res buf] rest IH]; intros i; simpl; [done|].
  destruct (read_step tun res buf) eqn:Hstep; destruct i as [|i]; simpl;
    try (intros [= <-]); try done.
  - intros Hi He. f_equal. by apply IH.
  - intros Hi He. f_equal. by apply IH.
Qed.

Lemma read_reached (tun : TunAdapter) (inputs : list (read_result * list byte))
    (i : nat) res buf :
  inputs !! i = Some (res, buf) → (i < length (read tun inputs))%nat →
  read tun inputs !! i = Some (read_step tun res buf).
Proof.
  intros Hin Hlt. destruct (lookup_lt_is_Some_2 _ _ Hlt) as [r Hr].
  destruct (read_lookup _ _ _ _ Hr) as (res' & buf' & Hin' & <-).
  rewrite Hin in Hin'. by injection Hin' as <- <-.
Qed.

(** X14: the read loop ends at the first device error it meets: it
    returns the error when the adapter is open and nil when it has been
    closed, and reads nothing after it. *)
Theorem read_ends_at_error (tun : TunAdapter) (ifc : Interface)
    (inputs : list (read_result * list byte)) (i : nat) (err : error) (buf : list byte) :
  iface tun = Some ifc →
  inputs !! i = Some (ReadErr err, buf) →
  (i < length (read tun inputs))%nat →
  read tun inputs !! i = Some (ReadReturn (if isOpen tun then Some err else None))
  ∧ length (read tun inputs) = S i.
Proof.
  intros Hifc Hin Hlt.
  pose proof (read_reached tun inputs i _ _ Hin Hlt) as Hr.
  unfold read_step in Hr. rewrite Hifc in Hr.
  assert (read tun inputs !! i
          = Some (ReadReturn (if isOpen tun then Some err else None))) as Hr'.
  { rewrite Hr. by destruct (isOpen tun). }
  split; [done|]. by apply (read_ends_last tun inputs i _ Hr').
Qed.

(** ** Start, Close, the probe and the MTU *)

Section ClosedAdapter.
Context `{Builders}.

Ltac turn_cases tun e data :=
  let b0 := fresh "b0" in let d := fresh "d" in let n := fresh "n" in
  let req := fresh "req" in
  destruct (write_tap_cases tun e data)
    as [[-> ->]|(b0 & Hb0 & [[Hx ->]|[(H4 & H6 & ->)|(d & Hfam & Hlink & ->)]])];
  [ | | |
    destruct (deliver_cases tun e b0 data d)
      as [(n & Hl & ->)|[(n & Hnd & Hl & ->)|(Hnd & Hna & ->)]];
    [ |
      destruct (sendndp_cases tun e d)
        as [[Hk ->]|[(Hk & Hc & ->)|(req & Hk & Hc & ->)]] |
      destruct (sendndp_cases tun e (addr tun))
        as [[Hk ->]|[(Hk & Hc & ->)|(req & Hk & Hc & ->)]] ] ].

(** A turn that panics after writing the payload does so on an open
    adapter; one that returns nil has written the payload to a closed
    one. *)
Lemma write_step_after_payload (tun : TunAdapter) (e : env) (ev : event) :
  payload_written (wire (write_step tun e ev)) →
  (ctl (write_step tun e ev) = Panic → isOpen tun = true ∧ write_ok e = false)
  ∧ (ctl (write_step tun e ev) = Return None → isOpen tun = false ∧ write_ok e = false)
  ∧ (write_ok e = false →
     ctl (write_step tun e ev) = if isOpen tun then Panic else Return None).
Proof.
  intros (x & Hx & Hpay).
  assert (∀ t w, isOpen t = isOpen tun →
            let r := if write_ok e then release t w [] else write_failed t w in
            (ctl r = Panic → isOpen tun = true ∧ write_ok e = false)
            ∧ (ctl r = Return None → isOpen tun = false ∧ write_ok e = false)
            ∧ (write_ok e = false → ctl r = if isOpen tun then Panic else Return None))
    as Hend.
  { intros t w Ho. unfold release, write_failed. rewrite <- Ho.
    destruct (write_ok e), (isOpen t); simpl; naive_solver. }
  assert (∀ t w data, ctl (if write_ok e then release t w data else write_failed t w)
                      = ctl (if write_ok e then release t w [] else write_failed t w))
    as Hdata by (intros; by destruct (write_ok e)).
  destruct ev as [reject|data]; simpl in *.
  - destruct (write_reject_harmless tun reject) as (_ & _ & _ & [Hw|[b Hw]]);
      rewrite Hw in Hx; [by apply elem_of_nil in Hx|].
    apply list_elem_of_singleton in Hx as ->. by destruct Hpay.
  - unfold write_recv in *. destruct (iface tun) as [ifc|];
      [|by apply elem_of_nil in Hx].
    destruct (IsTAP ifc).
    + revert Hx. turn_cases tun e data; simpl; try (by intros ?%elem_of_nil).
      * intros _. rewrite Hdata. by apply Hend.
      * intros _. rewrite Hdata. by apply Hend.
      * destruct (ndp_write_ok e); simpl.
        -- intros _. rewrite Hdata. by apply Hend.
        -- intros ->%list_elem_of_singleton. by destruct Hpay.
      * destruct (ndp_write_ok e); simpl; intros ->%list_elem_of_singleton;
          by destruct Hpay.
    + rewrite Hdata. by apply Hend.
Qed.

(** X15: [Close] changes nothing of the adapter but [isOpen], so the
    interface stays in place and a second [Close] leaves the adapter as
    the first did; afterwards a device error ends the read loop with nil,
    and a turn of the write loop whose payload the device refuses returns
    nil and never panics. *)
Theorem closed_adapter_ends_quietly (tun : TunAdapter) (ifc : Interface)
    (dev_close : option error) :
  iface tun = Some ifc →
  let closed := (Close tun dev_close).1 in
  iface closed = Some ifc ∧ icmpv6 closed = icmpv6 tun
  ∧ (∀ again, (Close closed again).1 = closed)
  ∧ (∀ err buf, read_step closed (ReadErr err) buf = ReadReturn None)
  ∧ (∀ e ev, payload_written (wire (write_step closed e ev)) →
             write_ok e = false →
             ctl (write_step closed e ev) = Return None).
Proof.
  intros Hifc closed.
  assert (closed = set_isOpen tun false) as ->.
  { unfold closed, Close. simpl. by rewrite Hifc. }
  split; [done|]. split; [done|]. split; [|split].
  - intros again. unfold Close. simpl. by rewrite Hifc.
  - intros err buf. unfold read_step. simpl. by rewrite Hifc.
  - intros e ev Hpay Hno.
    destruct (write_step_after_payload _ e ev Hpay) as (_ & _ & Hctl).
    by rewrite (Hctl Hno).
Qed.
End ClosedAdapter.

(** X16: [Start] starts the reader and the writer exactly when there is a
    configuration, the device name is neither "none" nor "dummy", and
    [setup] returned no error; it then returns nil and has set [isOpen].
    In every other case [isOpen] is as [setup] (or, when it was not
    called, the caller) left it; with "none" [setup] is not called at all,
    and an error of [setup] is returned as it is. *)
Theorem Start_opens_iff (setup : TunAdapter → string → bool → Z → TunAdapter * option error)
    (tun : TunAdapter) (config : option NodeConfig) (a : Address) (s : Subnet) :
  let result := Start setup tun config a s in
  let configured c := setup (set_addr tun a s) (IfName c) (IfTAPMode c) (IfMTU c) in
  (result.2 = true ↔
     ∃ c, config = Some c ∧ IfName c ≠ "none"%string ∧ IfName c ≠ "dummy"%string
          ∧ (configured c).2 = None)
  ∧ (result.2 = true → result.1.2 = None ∧ isOpen result.1.1 = true)
  ∧ (config = None →
     result = (set_addr tun a s, Some "No configuration available to TUN/TAP"%string, false))
  ∧ (∀ c, config = Some c → IfName c = "none"%string →
          result = (set_addr tun a s, None, false))
  ∧ (∀ c, config = Some c → IfName c ≠ "none"%string → result.2 = false →
          result = ((configured c).1, (configured c).2, false)).
Proof.
  intros result configured. unfold result, Start.
  destruct config as [c|]; simpl.
  2: { split; [|done]. split; [done|]. by intros (c & [=] & _). }
  fold (configured c).
  case_bool_decide as Hnone; simpl.
  - destruct (configured c) as [tun' [err|]] eqn:Hcfg; simpl.
    + repeat split; try done.
      * intros (c' & [= <-] & _ & _ & Herr). rewrite Hcfg in Herr. done.
      * by intros c' [= <-] Hn.
      * intros c' [= <-] _ _. by rewrite Hcfg.
    + rewrite (bool_decide_false (IfName c = "none"%string)) by done. simpl.
      case_bool_decide as Hdummy; simpl.
      * repeat split; try done.
        -- by intros (c' & [= <-] & _ & Hd & _).
        -- by intros c' [= <-] Hn.
        -- intros c' [= <-] _ _. by rewrite Hcfg.
      * repeat split; try done.
        -- intros _. exists c. rewrite Hcfg. done.
        -- by intros c' [= <-] Hn.
  - assert (IfName c = "none"%string) as Hname.
    { destruct (decide (IfName c = "none"%string)); [done|]. by destruct Hnone. }
    rewrite (bool_decide_true (IfName c = "none"%string)) by done. simpl.
    repeat split; try done.
    + by intros (c' & [= <-] & Hn & _).
    + by intros c' [= <-] Hn.
Qed.

Section ProbeFacts.
Context `{Builders}.

(** X17: the probe sends one solicitation for the adapter's own address
    per turn, as long as the cache has no entry for it, and ends at the
    first turn that finds an entry, learned or not, without sending
    anything more. *)
Theorem probe_until_entry (before after : list (TunAdapter * bool))
    (tun : TunAdapter) (accepted : bool) :
  Forall (λ x, peermacs (icmpv6 x.1) !! addr x.1 = None
               ∧ is_Some (iface x.1) ∧ is_Some (CreateNDPL2 x.1 (addr x.1))
               ∧ x.2 = true) before →
  is_Some (peermacs (icmpv6 tun) !! addr tun) →
  ∃ w, probe (before ++ (tun, accepted) :: after) = (Return None, w)
       ∧ length w = length before
       ∧ Forall2 (λ x sent, ∃ req, sent = Solicitation (addr x.1) req) before w.
Proof.
  intros Hbefore [n Hn]. induction Hbefore as [|[t ok] rest (Hnone & Hi & Hb & Hok) _ IH].
  - exists []. simpl. unfold probe_step. rewrite Hn. done.
  - destruct IH as (w & Hp & Hlen & Hall). simpl in *.
    destruct Hi as [ifc Hifc]. destruct Hb as [req Hreq]. subst ok.
    exists (Solicitation (addr t) req :: w).
    unfold probe_step. rewrite Hnone, Hreq, Hifc, Hp. simpl.
    split; [done|]. split; [by rewrite Hlen|].
    apply Forall2_cons. split; [by eexists|done].
Qed.

(** X18: once a turn of the write loop has solicited the adapter's own
    address and the device has taken the request, the probe ends at its
    next turn, although no MAC has been learned for that address. *)
Theorem probe_ends_after_write_solicits (tun : TunAdapter) (e : env) (ev : event)
    (req : list byte) (accepted : bool) :
  Solicitation (addr tun) req ∈ wire (write_step tun e ev) →
  ndp_write_ok e = true →
  let tun' := st (write_step tun e ev) in
  probe_step tun' accepted = (Return None, [])
  ∧ ∀ n, peermacs (icmpv6 tun') !! addr tun' = Some n → learned n = false.
Proof.
  intros Hin Hok tun'.
  apply write_step_solicits in Hin as (_ & _ & _ & Hst). rewrite Hok in Hst.
  unfold tun', probe_step. rewrite Hst. simpl. rewrite lookup_insert_eq.
  split; [done|]. by intros n [= <-].
Qed.
End ProbeFacts.

(** X19: [MTU] is the configured MTU cut down to the platform's maximum:
    it never exceeds [MaximumMTU], equals the configured value whenever
    that is within the maximum, and is not raised to any minimum. *)
Theorem MTU_clamped (defaults : platformDefaults) (tun : TunAdapter) :
  MTU defaults tun = Z.min (mtu tun) (MaximumMTU defaults)
  ∧ MTU defaults tun ≤ MaximumMTU defaults
  ∧ MTU defaults tun ≤ mtu tun
  ∧ getSupportedMTU defaults (MTU defaults tun) = MTU defaults tun.
Proof.
  unfold MTU, getSupportedMTU, MaximumMTU.
  repeat case_bool_decide; lia.
Qed.

Section ShortPayload.
Context `{Builders}.

(** X20: in TAP mode an IPv6-shaped payload of fewer than 40 bytes, or an
    IPv4-shaped one of fewer than 20, is dropped before any address is
    read from it: nothing is written, the cache is not touched, the buffer
    is released and the loop goes on with the events that follow. *)
Theorem short_payload_released (tun : TunAdapter) (e : env) (ifc : Interface)
    (data : list byte) (b0 : byte) (rest : list (env * event)) :
  iface tun = Some ifc → IsTAP ifc = true →
  data !! 0%nat = Some b0 →
  nibble b0 = 0x60 ∧ (length data < 40)%nat
  ∨ nibble b0 = 0x40 ∧ (length data < 20)%nat →
  write tun ((e, FromRecv data) :: rest)
  = let r := write tun rest in
    {| ctl := ctl r; st := st r; wire := wire r; pool := data :: pool r |}.
Proof.
  intros Hifc Htap Hb0 Hshort. rewrite write_cons. cbv zeta.
  assert (write_step tun e (FromRecv data) = release tun [] data) as ->.
  { unfold write_step, write_recv, write_tap, at_index.
    rewrite Hifc, Htap. rewrite bool_decide_true by lia.
    change (Z.to_nat 0) with 0%nat. rewrite Hb0. unfold extract_destAddr.
    destruct Hshort as [[H6 Hlen]|[H4 Hlen]].
    - rewrite (bool_decide_true (nibble b0 = 96)) by done.
      by rewrite bool_decide_true by lia.
    - rewrite (bool_decide_false (nibble b0 = 96)) by (rewrite H4; lia).
      rewrite (bool_decide_true (nibble b0 = 64)) by done.
      by rewrite bool_decide_true by lia. }
  done.
Qed.
End ShortPayload.

(** ** The further properties at sample inputs *)

Module FurtherChecks.
Import Sample.

#[local] Existing Instance builders.

Lemma write_frames_to_learned_witness :
  let tun := adapter tap {[ own_addr := host_entry ]} in
  let f := {| frame_dst := host_mac; frame_src := own_mac;
              frame_proto := EtherIPv4; frame_payload := ipv4_packet |} in
  ∃ e data b0 k n,
    (e, FromRecv data) ∈ [(at_time 0, FromRecv ipv4_packet)]
    ∧ data !! 0%nat = Some b0
    ∧ on_link tun k ∧ peermacs (icmpv6 tun) !! k = Some n ∧ learned n = true
    ∧ f = {| frame_dst := mac n; frame_src := mymac (icmpv6 tun);
             frame_proto := proto_of b0; frame_payload := data |}
    ∧ (nibble b0 = 0x40 ∧ frame_proto f = EtherIPv4
       ∨ nibble b0 = 0x60 ∧ frame_proto f = EtherIPv6).
Proof.
  intros tun f.
  apply (write_frames_to_learned (H := builders) tun
           [(at_time 0, FromRecv ipv4_packet)] f).
  assert (wire (write tun [(at_time 0, FromRecv ipv4_packet)]) = [EthernetFrame f]) as ->
    by (by vm_compute).
  by left.
Defined.

Lemma write_solicits_on_link_witness :
  let tun := adapter tap ∅ in
  on_link tun own_addr
  ∧ ∀ n, peermacs (icmpv6 tun) !! own_addr = Some n → learned n = false.
Proof.
  intros tun.
  apply (write_solicits_on_link (H := builders) tun
           [(at_time 0, FromRecv (ipv6_header remote_addr))]
           own_addr (vec_to_list own_addr)).
  assert (wire (write tun [(at_time 0, FromRecv (ipv6_header remote_addr))])
          = [Solicitation own_addr (vec_to_list own_addr)]) as -> by (by vm_compute).
  by left.
Defined.

Lemma one_solicitation_per_window_witness :
  let run := [(at_time 0, FromRecv ipv4_packet);
              (at_time (10 * Second), FromRecv (ipv6_header remote_addr));
              (at_time (29 * Second), FromRecv ipv4_packet)] in
  (length (solicitations_for own_addr (wire (write (adapter tap ∅) run))) ≤ 1)%nat.
Proof.
  intros run.
  apply (one_solicitation_per_window (H := builders) (adapter tap ∅) run own_addr).
  simpl. repeat split; repeat (apply Forall_cons; split); try (by apply Forall_nil);
    by vm_compute.
Defined.

Lemma tun_mode_passthrough_witness :
  let sends := [(at_time 0, ipv4_packet); (at_time 1, version5_packet); (at_time 2, [])] in
  write (adapter tun ∅) (payload_events sends)
  = {| ctl := Continue; st := adapter tun ∅;
       wire := [RawPacket ipv4_packet; RawPacket version5_packet; RawPacket []];
       pool := [ipv4_packet; version5_packet; []] |}.
Proof.
  intros sends.
  apply (tun_mode_passthrough (H := builders) (adapter tun ∅) {| IsTAP := false |} sends);
    [reflexivity | reflexivity |].
  repeat (apply Forall_cons; split); try (by apply Forall_nil); reflexivity.
Defined.

Lemma tap_mode_releases_all_witness :
  let sends := [(at_time 0, ipv4_packet); (at_time 1, ipv6_header subnet_peer);
                (at_time 2, [x60])] in
  ctl (write (adapter tap ∅) (payload_events sends)) = Continue
  ∧ pool (write (adapter tap ∅) (payload_events sends))
    = [ipv4_packet; ipv6_header subnet_peer; [x60]].
Proof.
  intros sends.
  apply (tap_mode_releases_all (H := builders) (adapter tap ∅) {| IsTAP := true |} sends);
    [reflexivity | reflexivity | by intros; eexists |].
  repeat (apply Forall_cons; split); try (by apply Forall_nil);
    (split; [reflexivity|]; split; [reflexivity|]).
  - exists x45. split; [reflexivity|]. left. reflexivity.
  - exists x60. split; [reflexivity|]. right. reflexivity.
  - exists x60. split; [reflexivity|]. right. reflexivity.
Defined.

Lemma empty_payload_panics_witness :
  let before := [(at_time 0, FromRecv ipv4_packet)] in
  let r := write (adapter tap ∅)
             (before ++ (at_time 1, FromRecv []) :: [(at_time 2, FromRecv ipv4_packet)]) in
  ctl r = Panic
  ∧ wire r = wire (write (adapter tap ∅) before)
  ∧ pool r = pool (write (adapter tap ∅) before).
Proof.
  intros before.
  apply (empty_payload_panics (H := builders) (adapter tap ∅) {| IsTAP := true |}
           before [(at_time 2, FromRecv ipv4_packet)] (at_time 1));
    [reflexivity | reflexivity | by vm_compute].
Defined.

Lemma packet_too_big_addresses_witness :
  let packet := {| visible := ipv6_header remote_addr; spare := [] |} in
  ∃ dst src,
    visible dst = take 16 (drop 8 (visible packet))
    ∧ visible src = take 16 (drop 24 (visible packet))
    ∧ write_reject (adapter tap ∅)
        {| Reason := PacketTooBig; Packet := packet; Detail := DetailInt 1280 |}
      = {| ctl := Continue; st := adapter tap ∅;
           wire := match CreateICMPv6 dst src 1280 packet with
                   | Some icmpv6Buf => [TooBig icmpv6Buf]
                   | None => []
                   end;
           pool := [] |}.
Proof.
  intros packet.
  apply (packet_too_big_addresses (H := builders) (adapter tap ∅) {| IsTAP := true |}
           packet 1280); [reflexivity | by vm_compute].
Defined.

(** The message of the witness above answers the sender of the rejected
    packet: its destination is the packet's source. *)
Example packet_too_big_goes_to_sender :
  let packet := {| visible := ipv6_header remote_addr; spare := [] |} in
  wire (write_reject (adapter tap ∅)
          {| Reason := PacketTooBig; Packet := packet; Detail := DetailInt 1280 |})
  = [TooBig (vec_to_list own_addr ++ vec_to_list remote_addr)].
Proof. by vm_compute. Qed.

Lemma learned_destination_framed_witness :
  let tun := adapter tap {[ subnet_peer := host_entry ]} in
  let data := ipv6_header subnet_peer in
  write_step tun (at_time 0) (FromRecv data)
  = {| ctl := Continue; st := tun;
       wire := [EthernetFrame {| frame_dst := host_mac; frame_src := own_mac;
                                 frame_proto := EtherIPv6; frame_payload := data |}];
       pool := [data] |}.
Proof.
  intros tun data.
  apply (learned_destination_framed (H := builders) tun (at_time 0) {| IsTAP := true |}
           data x60 subnet_peer host_entry); reflexivity.
Defined.

Lemma read_forwards_well_formed_witness :
  let frame := ether_header x86 xdd ++ icmpv6_header own_addr in
  read_step (adapter tap ∅) (ReadN 54) (tap_buffer frame)
  = Forwarded (icmpv6_header own_addr) (Some frame).
Proof.
  intros frame.
  apply (read_forwards_well_formed (adapter tap ∅) {| IsTAP := true |}
           (tap_buffer frame) 54 x3a); try reflexivity.
  by vm_compute.
Defined.

Lemma read_never_panics_witness :
  let frame := ether_header x86 xdd ++ [x60] in
  read_step (adapter tap ∅) (ReadN 15) (tap_buffer frame) ≠ ReadPanic.
Proof.
  intros frame.
  apply (read_never_panics (adapter tap ∅) (replicate 1294 x00) (tap_buffer frame)
           (ReadN 15)); [reflexivity | reflexivity | by vm_compute |].
  intros n [= <-]. by vm_compute.
Defined.

Lemma parsed_frame_holds_packet_witness :
  let frame := ether_header x86 xdd ++ icmpv6_header own_addr in
  (∃ ifc, iface (adapter tap ∅) = Some ifc ∧ IsTAP ifc = true)
  ∧ frame = take (Z.to_nat 54) (tap_buffer frame)
  ∧ length frame = Z.to_nat 54
  ∧ icmpv6_header own_addr = drop 14 frame.
Proof.
  intros frame.
  apply (parsed_frame_holds_packet (adapter tap ∅) 54 (tap_buffer frame)
           (icmpv6_header own_addr) frame).
  by vm_compute.
Defined.

Lemma read_ends_at_error_witness :
  let buf := tap_buffer (ether_header x86 xdd ++ ipv6_header own_addr) in
  let inputs := [(ReadN 54, buf); (ReadErr "file already closed"%string, buf);
                 (ReadN 54, buf)] in
  read (adapter tap ∅) inputs !! 1%nat
    = Some (ReadReturn (Some "file already closed"%string))
  ∧ length (read (adapter tap ∅) inputs) = 2%nat.
Proof.
  intros buf inputs.
  apply (read_ends_at_error (adapter tap ∅) {| IsTAP := true |} inputs 1
           "file already closed"%string buf); [reflexivity | reflexivity |].
  assert (length (read (adapter tap ∅) inputs) = 2%nat) as -> by (by vm_compute).
  lia.
Defined.

Lemma closed_adapter_ends_quietly_witness :
  let closed := (Close (adapter tun ∅) None).1 in
  let refused := {| since_now := 0; stamp_now := 0; ndp_write_ok := true;
                    write_ok := false |} in
  read_step closed (ReadErr "file already closed"%string) [] = ReadReturn None
  ∧ ctl (write_step closed refused (FromRecv ipv4_packet)) = Return None.
Proof.
  intros closed refused.
  destruct (closed_adapter_ends_quietly (H := builders) (adapter tun ∅)
              {| IsTAP := false |} None eq_refl) as (_ & _ & _ & Hread & Hwrite).
  split; [apply Hread|]. apply Hwrite; [|reflexivity].
  exists (RawPacket ipv4_packet). split; [|done].
  match goal with
  | |- _ ∈ ?w => replace w with [RawPacket ipv4_packet] by (by vm_compute)
  end.
  by left.
Defined.

Lemma probe_until_entry_witness :
  ∃ w, probe [(adapter tap ∅, true); (adapter tap ∅, true);
              (adapter tap {[ own_addr := solicited 0 ]}, true);
              (adapter tap ∅, true)]
       = (Return None, w)
       ∧ length w = 2%nat
       ∧ Forall2 (λ x sent, ∃ req, sent = Solicitation (addr x.1) req)
           [(adapter tap ∅, true); (adapter tap ∅, true)] w.
Proof.
  apply (probe_until_entry (H := builders)
           [(adapter tap ∅, true); (adapter tap ∅, true)] [(adapter tap ∅, true)]
           (adapter tap {[ own_addr := solicited 0 ]}) true).
  - repeat (apply Forall_cons; split); try (by apply Forall_nil);
      (split; [reflexivity|]; split; [by eexists|]; split; [by eexists|reflexivity]).
  - by eexists.
Defined.

Lemma probe_ends_after_write_solicits_witness :
  let tun' := st (write_step (adapter tap ∅) (at_time 0) (FromRecv ipv4_packet)) in
  probe_step tun' true = (Return None, [])
  ∧ ∀ n, peermacs (icmpv6 tun') !! addr tun' = Some n → learned n = false.
Proof.
  apply (probe_ends_after_write_solicits (H := builders) (adapter tap ∅) (at_time 0)
           (FromRecv ipv4_packet) (vec_to_list own_addr) true); [|reflexivity].
  assert (wire (write_step (adapter tap ∅) (at_time 0) (FromRecv ipv4_packet))
          = [Solicitation own_addr (vec_to_list own_addr)]) as -> by (by vm_compute).
  by left.
Defined.

Lemma short_payload_released_witness :
  let short := [x60; x00; x00; x00] in
  write (adapter tap ∅) [(at_time 0, FromRecv short); (at_time 1, FromRecv ipv4_packet)]
  = let r := write (adapter tap ∅) [(at_time 1, FromRecv ipv4_packet)] in
    {| ctl := ctl r; st := st r; wire := wire r; pool := short :: pool r |}.
Proof.
  intros short.
  apply (short_payload_released (H := builders) (adapter tap ∅) (at_time 0)
           {| IsTAP := true |} short x60); try reflexivity.
  left. split; [reflexivity | simpl; lia].
Defined.

(** The clamp at work: a configured MTU of 70000 is cut to the maximum,
    one of 1280 is kept, and one of 0 is kept as well. *)
Example MTU_samples :
  getSupportedMTU platform 70000 = 65535
  ∧ getSupportedMTU platform 1280 = 1280
  ∧ getSupportedMTU platform 0 = 0.
Proof. by vm_compute. Qed.
End FurtherChecks.
